(** * svelte-heatmap: the calendar model of [src/utils/heatmap.js]

    A shallow embedding of the five exported functions of
    [src/utils/heatmap.js] ([chunkMonths], [chunkWeeks], [getCalendar],
    [getColor], [getDay]) together with the part of the JavaScript run time
    they rely on, followed by the properties the specification states about
    them.

    Modelling decisions.
    - A JavaScript [Date] is its time value: an integer number of
      milliseconds since the epoch.  Time values are taken to stay inside
      the range in which a [Date] is valid, so no [Date] is ever invalid.
    - The local time zone is UTC: the local-time accessors ([getMonth],
      [getDate], [setDate]) read and write the UTC civil date, and every
      civil day lasts [msPerDay] milliseconds.
    - Observation values are integers, so that [+] and [>] are exact.  The
      two quotients compared in [getColor] are exact rationals, with the
      IEEE results of a division by zero written out.
    - [new Date()] reads a clock; the readings are inputs of [getCalendar].
    - The module [./date] is not part of the sources.  Its five functions are
      the fields of the class [DateLib]; [SpecDateLib] is an instance
      written from the specification. *)

From Stdlib Require Import ZArith QArith List String Bool Lia ZifyNat Sorted.
From Stdlib Require Import Permutation.
Import ListNotations.

#[local] Open Scope Z_scope.

(** ** The JavaScript run time *)

Module JS.

(** *** Dates (ECMAScript, "Date objects") *)

Definition Date := Z.

Definition msPerDay : Z := 86400000.

Definition Day (t : Date) : Z := t / msPerDay.

Definition TimeWithinDay (t : Date) : Z := t mod msPerDay.

Definition MakeDate (day time : Z) : Date := day * msPerDay + time.

(** The proleptic Gregorian calendar over day numbers (days since
    1970-01-01), computed era by era: an era is 400 years, 146097 days, and
    starts on a first of March. *)

Definition daysPerEra : Z := 146097.

Definition eraShift : Z := 719468.

Definition eraOfDay (n : Z) : Z := (n + eraShift) / daysPerEra.

Definition dayOfEra (n : Z) : Z := (n + eraShift) mod daysPerEra.

Definition yearOfEra (doe : Z) : Z :=
  (doe - doe / 1460 + doe / 36524 - doe / 146096) / 365.

Definition dayOfMarchYear (doe : Z) : Z :=
  let yoe := yearOfEra doe in
  doe - (365 * yoe + yoe / 4 - yoe / 100).

(** Months counted from March: 0 is March, 11 is February. *)
Definition marchMonth (doy : Z) : Z := (5 * doy + 2) / 153.

Definition marchMonthStart (mp : Z) : Z := (153 * mp + 2) / 5.

Definition YearFromDay (n : Z) : Z :=
  let doe := dayOfEra n in
  let mp := marchMonth (dayOfMarchYear doe) in
  yearOfEra doe + 400 * eraOfDay n + (if mp <? 10 then 0 else 1).

(** 0 is January, 11 is December. *)
Definition MonthFromDay (n : Z) : Z :=
  let mp := marchMonth (dayOfMarchYear (dayOfEra n)) in
  if mp <? 10 then mp + 2 else mp - 10.

(** 1 is the first day of the month. *)
Definition DateFromDay (n : Z) : Z :=
  let doy := dayOfMarchYear (dayOfEra n) in
  doy - marchMonthStart (marchMonth doy) + 1.

Definition YearFromTime (t : Date) : Z := YearFromDay (Day t).
Definition MonthFromTime (t : Date) : Z := MonthFromDay (Day t).
Definition DateFromTime (t : Date) : Z := DateFromDay (Day t).

(** 0 is Sunday; the epoch was a Thursday. *)
Definition WeekDay (t : Date) : Z := (Day t + 4) mod 7.

(** The day number of the first day of month [month] (0 to 11) of [year]. *)
Definition dayOfMonthStart (year month : Z) : Z :=
  let y := if month <? 2 then year - 1 else year in
  let mp := if month <? 2 then month + 10 else month - 2 in
  let yoe := y mod 400 in
  (y / 400) * daysPerEra
  + (yoe * 365 + yoe / 4 - yoe / 100 + marchMonthStart mp)
  - eraShift.

(** [MakeDay]: months outside 0..11 carry into the year, days outside the
    month carry into the neighbouring months. *)
Definition MakeDay (year month date : Z) : Z :=
  dayOfMonthStart (year + month / 12) (month mod 12) + date - 1.

(** [Date.prototype.getMonth], [getDate] and [setDate]; [setDate] is
    written as a function from the old time value to the new one. *)
Definition getMonth (t : Date) : Z := MonthFromTime t.

Definition getDate (t : Date) : Z := DateFromTime t.

Definition setDate (t : Date) (dt : Z) : Date :=
  MakeDate (MakeDay (YearFromTime t) (MonthFromTime t) dt) (TimeWithinDay t).

(** [new Date(year, month, date)]: midnight of that civil day. *)
Definition newDate (year month date : Z) : Date :=
  MakeDate (MakeDay year month date) 0.

(** *** Numbers: the result of [/] and the comparison [<] *)

Inductive number : Type :=
| NaN
| NegInfinity
| Finite (q : Q)
| PosInfinity.

(** [a / b] on integer operands. *)
Definition div (a b : Z) : number :=
  if b =? 0 then
    if a =? 0 then NaN else if 0 <? a then PosInfinity else NegInfinity
  else Finite (inject_Z a / inject_Z b)%Q.

Definition Qltb (x y : Q) : bool := negb (Qle_bool y x).

(** [x < y]; a comparison with [NaN] is false. *)
Definition lt (x y : number) : bool :=
  match x, y with
  | NaN, _ | _, NaN => false
  | PosInfinity, _ => false
  | _, NegInfinity => false
  | NegInfinity, _ => true
  | _, PosInfinity => true
  | Finite p, Finite q => Qltb p q
  end.

(** *** Values that may be [null] or [undefined] *)

Inductive nullable (A : Type) : Type :=
| Null
| Undefined
| Val (a : A).

Arguments Null {A}.
Arguments Undefined {A}.
Arguments Val {A} a.

(** [arr[i]]: reading outside the array yields [undefined]. *)
Definition index {A : Type} (arr : list A) (i : nat) : nullable A :=
  match nth_error arr i with
  | Some a => Val a
  | None => Undefined
  end.

(** Truthiness of a string-or-nothing value: [null], [undefined] and the
    empty string are falsy. *)
Definition truthy (v : nullable string) : bool :=
  match v with
  | Val s => negb (String.eqb s EmptyString)
  | _ => false
  end.

(** [v || dflt] for a string [dflt]. *)
Definition or_else (v : nullable string) (dflt : string) : string :=
  match v with
  | Val s => if truthy v then s else dflt
  | _ => dflt
  end.

End JS.

Import JS.

(** ** The module [./date] *)

(** Modelled from the spec: the module [./date] is imported by
    [heatmap.js] and is not among the sources.  The specification gives its
    interface only: [normalizeDate] turns a date-like input into a [Date],
    the four boundary functions take a [Date] to the first or last day of
    its week or month.  The functions are the fields of a class, so that
    everything below is stated for any implementation of that interface. *)
Class DateLib : Type := {
  DateLike : Type;
  normalizeDate : DateLike -> Date;
  getWeekStart : Date -> Date;
  getWeekEnd : Date -> Date;
  getMonthStart : Date -> Date;
  getMonthEnd : Date -> Date
}.

(** Modelled from the spec: a bound of the row chunkers "may be absent,
    meaning unbounded on that side".  [normalizeDate] applied to an absent
    argument therefore yields a falsy result, written [None]; a present
    argument yields a [Date], which is truthy. *)
Definition normalizeArg `{DL : DateLib} (v : option DateLike) : option Date :=
  option_map normalizeDate v.

(** Modelled from the spec: an instance of the interface.  A date-like
    input is a time value; [normalizeDate] "collapses any date-like input to
    day granularity"; a week runs from Sunday to Saturday ("Sunday-first
    week alignment"); the boundary functions return midnight of the first or
    last day of the week or month containing their argument. *)
#[export] Instance SpecDateLib : DateLib := {|
  DateLike := Date;
  normalizeDate := fun v => MakeDate (Day v) 0;
  getWeekStart := fun d =>
    newDate (YearFromTime d) (MonthFromTime d) (DateFromTime d - WeekDay d);
  getWeekEnd := fun d =>
    newDate (YearFromTime d) (MonthFromTime d) (DateFromTime d + (6 - WeekDay d));
  getMonthStart := fun d => newDate (YearFromTime d) (MonthFromTime d) 1;
  getMonthEnd := fun d => newDate (YearFromTime d) (MonthFromTime d + 1) 0
|}.

(** ** Data model *)

(** An observation [{ date, value }] of the input data. *)
Record Observation `{DL : DateLib} : Type := mkObservation {
  odate : DateLike;
  ovalue : Z
}.

(** The object [{ date, value }] returned by [getDay]. *)
Record DayValue : Type := mkDayValue {
  adate : Date;
  avalue : Z
}.

(** A calendar entry [{ color, date, value }]. *)
Record DayEntry : Type := mkDayEntry {
  color : string;
  date : Date;
  value : Z
}.

(** A row of the chunked calendar. *)
Abbreviation Row := (list DayEntry) (only parsing).

(** ** Errors and arrays *)

(** A computation that may throw; [None] is a thrown exception. *)
Definition bind {A B : Type} (m : option A) (k : A -> option B) : option B :=
  match m with
  | Some a => k a
  | None => None
  end.

Notation "x <- m ;; k" := (bind m (fun x => k))
  (at level 61, m at next level, right associativity).
Notation "' p <- m ;; k" := (bind m (fun p => k))
  (at level 61, p pattern, m at next level, right associativity).

(** [arr.push(x)]. *)
Definition push {A : Type} (arr : list A) (x : A) : list A := arr ++ [x].

(** [acc[acc.length - 1].push(day)]: on an empty [acc] the last element is
    [undefined] and the call throws a [TypeError]. *)
Fixpoint push_last (acc : list Row) (day : DayEntry) : option (list Row) :=
  match acc with
  | [] => None
  | r :: rest =>
      match rest with
      | [] => Some [push r day]
      | _ :: _ => acc' <- push_last rest day ;; Some (r :: acc')
      end
  end.

(** [arr.reduce(f, init)] for a callback that receives the index and may
    throw. *)
Fixpoint reduce_from {A B : Type} (f : B -> A -> nat -> option B)
    (arr : list A) (i : nat) (acc : B) : option B :=
  match arr with
  | [] => Some acc
  | x :: rest => acc' <- f acc x i ;; reduce_from f rest (S i) acc'
  end.

Definition reduce {A B : Type} (f : B -> A -> nat -> option B)
    (arr : list A) (init : B) : option B :=
  reduce_from f arr 0%nat init.

(** ** [chunkMonths] *)

(** The state of the reduction is the captured variable [prevMonth] and the
    accumulator [acc]. *)
Definition chunkMonths `{DL : DateLib} (allowOverflow : bool)
    (calendar : list DayEntry) (endDate startDate : option DateLike)
    : option (list Row) :=
  let prevMonth := -1 in
  let startDate := normalizeArg startDate in
  let endDate := normalizeArg endDate in
  '(_, acc) <-
    reduce (fun '(prevMonth, acc) day _ =>
      let currentMonth := getMonth (date day) in
      let '(prevMonth, acc) :=
        if negb (prevMonth =? currentMonth)
        then (currentMonth, push acc [])
        else (prevMonth, acc) in
      if allowOverflow ||
         ((match startDate with None => true | Some s => s <=? date day end) &&
          (match endDate with None => true | Some e => date day <=? e end))
      then acc <- push_last acc day ;; Some (prevMonth, acc)
      else Some (prevMonth, acc))
    calendar (prevMonth, []) ;;
  Some (filter (fun month => negb (List.length month =? 0)%nat) acc).

(** ** [chunkWeeks] *)

Definition chunkWeeks `{DL : DateLib} (allowOverflow : bool)
    (calendar : list DayEntry) (endDate startDate : option DateLike)
    : option (list Row) :=
  let startDate := normalizeArg startDate in
  let endDate := normalizeArg endDate in
  acc <-
    reduce (fun acc day index =>
      let acc := if (index mod 7 =? 0)%nat then push acc [] else acc in
      if allowOverflow ||
         ((match startDate with None => true | Some s => s <=? date day end) &&
          (match endDate with None => true | Some e => date day <=? e end))
      then push_last acc day
      else Some acc)
    calendar [] ;;
  Some (filter (fun week => negb (List.length week =? 0)%nat) acc).

(** ** [getColor] *)

(** The loop [for (let i = 1; i < colors.length; i++)]; [fuel] is the number
    of iterations left, [colors.length - i].  When it is exhausted the loop
    is left and [colors[colors.length - 1]] is returned. *)
Fixpoint getColor_loop (colors : list string) (intencity : number)
    (i fuel : nat) (color : nullable string) : nullable string :=
  match fuel with
  | O => index colors (List.length colors - 1)
  | S fuel' =>
      if lt intencity (div (Z.of_nat i) (Z.of_nat (List.length colors)))
      then color
      else getColor_loop colors intencity (S i) fuel' (index colors i)
  end.

Definition getColor (colors : list string) (max value : Z)
    : nullable string :=
  if negb (List.length colors =? 0)%nat && negb (value =? 0) then
    let color := index colors 0 in
    let intencity := div value max in
    getColor_loop colors intencity 1 (List.length colors - 1) color
  else Null.

(** ** [getDay] *)

Definition getDay `{DL : DateLib} (data : list Observation) (offset : Z)
    (startDate : Date) (startDayOfMonth : Z) : DayValue :=
  let date := setDate startDate (startDayOfMonth + offset) in
  let nextDate := setDate date (getDate date + 1) in
  let value :=
    fold_left (fun acc obj =>
      let datapoint := normalizeDate (odate obj) in
      if (date <=? datapoint) && (datapoint <? nextDate)
      then acc + ovalue obj
      else acc) data 0 in
  {| adate := date; avalue := value |}.

(** ** [getCalendar] *)

(** Lines 94 and 95: an absent (falsy) date is replaced by a reading of the
    clock, a present one goes through [normalizeDate]. *)
Definition resolveDates `{DL : DateLib} (now1 now2 : Date)
    (endDate startDate : option DateLike) : Date * Date :=
  let startDate :=
    match startDate with Some s => normalizeDate s | None => now1 end in
  let endDate :=
    match endDate with Some e => normalizeDate e | None => now2 end in
  (startDate, endDate).

(** Lines 97 to 103: the range is widened to whole months or whole weeks. *)
Definition widenDates `{DL : DateLib} (view : string) (range : Date * Date)
    : Date * Date :=
  let '(startDate, endDate) := range in
  if String.eqb view "monthly"
  then (getMonthStart startDate, getMonthEnd endDate)
  else (getWeekStart startDate, getWeekEnd endDate).

(** [new Array(totalDays).fill()] throws a [RangeError] on a negative
    length; the first [map] runs to its end, and so fixes [max], before the
    second one starts. *)
Definition getCalendar `{DL : DateLib} (now1 now2 : Date) (colors : list string)
    (data : list Observation) (emptyColor : string)
    (endDate startDate : option DateLike) (view : string)
    : option (list DayEntry) :=
  let '(startDate, endDate) :=
    widenDates view (resolveDates now1 now2 endDate startDate) in
  let max := 0 in
  let startDayOfMonth := getDate startDate in
  let totalDays := (endDate - startDate) / 86400000 + 1 in
  if totalDays <? 0 then None else
  let days :=
    map (fun offset =>
           getDay data (Z.of_nat offset) startDate startDayOfMonth)
        (seq 0 (Z.to_nat totalDays)) in
  let max :=
    fold_left (fun max day => if avalue day >? max then avalue day else max)
              days max in
  Some (map (fun d =>
               let color := or_else (getColor colors max (avalue d)) emptyColor in
               {| color := color; date := adate d; value := avalue d |})
            days).

(** ** Vocabulary of the statements *)


(** The calendar month of a date, years included: months counted from
    January of year 0. *)
Definition absMonth (t : Date) : Z := 12 * YearFromTime t + MonthFromTime t.

(** A calendar as [getCalendar] builds it: each entry is one day after the
    entry before it. *)
Inductive contiguous : list DayEntry -> Prop :=
| contiguous_nil : contiguous []
| contiguous_one d : contiguous [d]
| contiguous_cons d d' l :
    date d' = date d + msPerDay ->
    contiguous (d' :: l) ->
    contiguous (d :: d' :: l).

Definition sumZ (l : list Z) : Z := fold_right Z.add 0 l.

(** The observations that [getDay] counts for the day starting at [t]. *)
Definition onDay `{DL : DateLib} (t : Date) (obj : Observation) : bool :=
  (t <=? normalizeDate (odate obj)) && (normalizeDate (odate obj) <? t + msPerDay).

(** The largest value of a calendar, 0 for an empty one. *)
Definition calendarMax (cal : list DayEntry) : Z :=
  fold_right Z.max 0 (map value cal).

(** [day] lies within the normalized bounds; an absent bound does not
    restrict. *)
Definition inBounds `{DL : DateLib} (endDate startDate : option DateLike)
    (day : DayEntry) : bool :=
  (match normalizeArg startDate with None => true | Some s => s <=? date day end) &&
  (match normalizeArg endDate with None => true | Some e => date day <=? e end).

(** The test that guards [acc[acc.length - 1].push(day)] in both chunkers. *)
Definition included `{DL : DateLib} (allowOverflow : bool)
    (endDate startDate : option DateLike) (day : DayEntry) : bool :=
  allowOverflow || inBounds endDate startDate day.

(** The predicate of the final [filter]: [row.length] is truthy. *)
Definition nonEmpty (row : Row) : bool := negb (List.length row =? 0)%nat.

(** The rows that a left-to-right pass builds from entries marked with
    "starts a new row", when the row being filled is [r]: a marked entry
    closes [r] and opens a row, every kept entry goes to the open row. *)
Fixpoint segment (keep : DayEntry -> bool) (r : Row)
    (marked : list (bool * DayEntry)) : list Row :=
  match marked with
  | [] => [r]
  | (new, x) :: rest =>
      let x' := if keep x then [x] else [] in
      if new then r :: segment keep x' rest else segment keep (r ++ x') rest
  end.

(** The marks of [chunkWeeks], from index [i] on: every 7th index. *)
Fixpoint weekMarks (i : nat) (cal : list DayEntry) : list (bool * DayEntry) :=
  match cal with
  | [] => []
  | x :: rest => ((i mod 7 =? 0)%nat, x) :: weekMarks (S i) rest
  end.

(** The marks of [chunkMonths] when the previous month is [prevMonth]:
    every change of [getMonth]. *)
Fixpoint monthMarks (prevMonth : Z) (cal : list DayEntry)
    : list (bool * DayEntry) :=
  match cal with
  | [] => []
  | x :: rest =>
      (negb (prevMonth =? getMonth (date x)), x)
        :: monthMarks (getMonth (date x)) rest
  end.

(** The callbacks of the two reductions, with the inclusion test as a
    parameter. *)
Definition weekStep (keep : DayEntry -> bool) (acc : list Row)
    (day : DayEntry) (index : nat) : option (list Row) :=
  let acc := if (index mod 7 =? 0)%nat then push acc [] else acc in
  if keep day then push_last acc day else Some acc.

Definition monthStep (keep : DayEntry -> bool)
    : Z * list Row -> DayEntry -> nat -> option (Z * list Row) :=
  fun '(prevMonth, acc) day _ =>
  let currentMonth := getMonth (date day) in
  let '(prevMonth, acc) :=
    if negb (prevMonth =? currentMonth)
    then (currentMonth, push acc [])
    else (prevMonth, acc) in
  if keep day
  then acc <- push_last acc day ;; Some (prevMonth, acc)
  else Some (prevMonth, acc).

(** The month rows in the words of the specification: "a new row starts
    whenever the current entry's month differs from the previous entry's
    month (first entry always starts a row)".  The entry [x] starts a row;
    the entry after it continues that row when [getMonth] agrees on the
    two, and starts the next row otherwise. *)
Fixpoint monthRuns (cal : list DayEntry) : list Row :=
  match cal with
  | [] => []
  | x :: rest =>
      match monthRuns rest with
      | (y :: row) :: rows =>
          if getMonth (date x) =? getMonth (date y)
          then (x :: y :: row) :: rows
          else [x] :: (y :: row) :: rows
      | _ => [[x]]
      end
  end.

(** All entries of a row lie in one calendar month. *)
Definition oneMonth (row : Row) : Prop :=
  forall d d', In d row -> In d' row -> absMonth (date d) = absMonth (date d').

(** Every entry of [r1] lies in an earlier calendar month than every entry
    of [r2]. *)
Definition monthBefore (r1 r2 : Row) : Prop :=
  forall d d', In d r1 -> In d' r2 -> absMonth (date d) < absMonth (date d').


(** A non-empty row whose entries all have [getMonth] equal to [m]. *)
Definition rowMonth (m : Z) (row : Row) : Prop :=
  row <> [] /\ forall d, In d row -> getMonth (date d) = m.

(** Rows of constant [getMonth], neighbouring rows differing in it. *)
Inductive monthChain : list Row -> Prop :=
| monthChain_nil : monthChain []
| monthChain_one m r : rowMonth m r -> monthChain [r]
| monthChain_cons m m' r r' rows :
    rowMonth m r -> rowMonth m' r' -> m <> m' ->
    monthChain (r' :: rows) ->
    monthChain (r :: r' :: rows).

(** The exact quotient [a / b]. *)
Definition fraction (a b : Z) : Q := (inject_Z a / inject_Z b)%Q.

(** Inputs of the test suite [heatmap.spec.js]: 15 to 18 January 2020 and
    the three observations of the test "aggregates values". *)
Definition jan2020 (d : Z) : Date := newDate 2020 0 d.

Definition testData : list (@Observation SpecDateLib) :=
  [ {| odate := jan2020 15; ovalue := 1 |};
    {| odate := jan2020 15; ovalue := 2 |};
    {| odate := jan2020 16; ovalue := 5 |} ].

(** A calendar of three days across the end of January 2020. *)
Definition testCalendar : list DayEntry :=
  [ {| color := "#000"; date := jan2020 30; value := 0 |};
    {| color := "#000"; date := jan2020 31; value := 0 |};
    {| color := "#000"; date := jan2020 32; value := 0 |} ].

(** ** The civil calendar *)

Ltac zdiv := Z.div_mod_to_equations; lia.

Ltac ndiv := zify; Z.div_mod_to_equations; lia.

Lemma Day_MakeDate d t : 0 <= t < msPerDay -> Day (MakeDate d t) = d.
Proof. unfold Day, MakeDate, msPerDay. intros. zdiv. Qed.

Lemma TimeWithinDay_MakeDate d t :
  0 <= t < msPerDay -> TimeWithinDay (MakeDate d t) = t.
Proof. unfold TimeWithinDay, MakeDate, msPerDay. intros. zdiv. Qed.

Lemma TimeWithinDay_range t : 0 <= TimeWithinDay t < msPerDay.
Proof. unfold TimeWithinDay, msPerDay. zdiv. Qed.

Lemma MakeDate_Day t : MakeDate (Day t) (TimeWithinDay t) = t.
Proof. unfold MakeDate, Day, TimeWithinDay, msPerDay. zdiv. Qed.

Lemma Day_add t k : Day (t + k * msPerDay) = Day t + k.
Proof. unfold Day, msPerDay. zdiv. Qed.


Lemma dayOfEra_range n : 0 <= dayOfEra n < 146097.
Proof. unfold dayOfEra, daysPerEra. zdiv. Qed.

Lemma yearOfEra_range doe : 0 <= doe < 146097 -> 0 <= yearOfEra doe <= 399.
Proof. unfold yearOfEra. intros. zdiv. Qed.

Lemma dayOfMarchYear_range doe :
  0 <= doe < 146097 -> 0 <= dayOfMarchYear doe <= 365.
Proof. unfold dayOfMarchYear, yearOfEra. intros. zdiv. Qed.

Lemma marchMonth_range doy : 0 <= doy <= 365 -> 0 <= marchMonth doy <= 11.
Proof. unfold marchMonth. intros. zdiv. Qed.

Lemma MonthFromDay_range n : 0 <= MonthFromDay n <= 11.
Proof.
  unfold MonthFromDay.
  pose proof (marchMonth_range _ (dayOfMarchYear_range _ (dayOfEra_range n))).
  destruct (Z.ltb_spec (marchMonth (dayOfMarchYear (dayOfEra n))) 10); lia.
Qed.

Lemma getMonth_range t : 0 <= getMonth t <= 11.
Proof. apply MonthFromDay_range. Qed.

(** Going from a day number to its civil date and back to the day number
    of that date's month start recovers the day number. *)
Lemma civil_roundtrip n :
  dayOfMonthStart (YearFromDay n) (MonthFromDay n) + DateFromDay n - 1 = n.
Proof.
  unfold dayOfMonthStart, YearFromDay, MonthFromDay, DateFromDay.
  pose proof (dayOfEra_range n) as Hdoe.
  pose proof (yearOfEra_range _ Hdoe) as Hyoe.
  pose proof (marchMonth_range _ (dayOfMarchYear_range _ Hdoe)) as Hmp.
  set (doe := dayOfEra n) in *.
  assert (Hdoy : dayOfMarchYear doe
                 = doe - (365 * yearOfEra doe + yearOfEra doe / 4
                          - yearOfEra doe / 100)) by reflexivity.
  set (yoe := yearOfEra doe) in *.
  set (doy := dayOfMarchYear doe) in *.
  set (mp := marchMonth doy) in *.
  assert (Hn : n = eraOfDay n * daysPerEra + doe - eraShift).
  { unfold eraOfDay, doe, dayOfEra, daysPerEra, eraShift. zdiv. }
  set (era := eraOfDay n) in *.
  destruct (Z.ltb_spec mp 10).
  - replace (mp + 2 <? 2) with false by (symmetry; apply Z.ltb_ge; lia).
    replace (mp + 2 - 2) with mp by lia.
    replace (yoe + 400 * era + 0) with (yoe + era * 400) by lia.
    rewrite Z.div_add, Z.mod_add by lia.
    rewrite Z.div_small, Z.mod_small by lia.
    unfold daysPerEra, eraShift in *. lia.
  - replace (mp - 10 <? 2) with true by (symmetry; apply Z.ltb_lt; lia).
    replace (mp - 10 + 10) with mp by lia.
    replace (yoe + 400 * era + 1 - 1) with (yoe + era * 400) by lia.
    rewrite Z.div_add, Z.mod_add by lia.
    rewrite Z.div_small, Z.mod_small by lia.
    unfold daysPerEra, eraShift in *. lia.
Qed.

Lemma MakeDay_civil n k :
  MakeDay (YearFromDay n) (MonthFromDay n) (DateFromDay n + k) = n + k.
Proof.
  unfold MakeDay.
  pose proof (MonthFromDay_range n).
  rewrite Z.div_small, Z.mod_small, Z.add_0_r by lia.
  pose proof (civil_roundtrip n). lia.
Qed.

(** [setDate] with the day of the month moved by [k] moves the date by [k]
    whole days and keeps the time of day. *)
Lemma setDate_getDate t k : setDate t (getDate t + k) = t + k * msPerDay.
Proof.
  unfold setDate, getDate, YearFromTime, MonthFromTime, DateFromTime.
  rewrite MakeDay_civil.
  pose proof (MakeDate_Day t). unfold MakeDate in *. lia.
Qed.
Lemma year_bracket doe : 0 <= doe < 146096 ->
  let y := yearOfEra doe in
  365 * y + y / 4 - y / 100 <= doe < 365 * (y + 1) + (y + 1) / 4 - (y + 1) / 100.
Proof. unfold yearOfEra. intros. cbv zeta. zdiv. Qed.

Lemma year_step doe : 0 <= doe -> doe + 1 < 146096 ->
  (yearOfEra (doe + 1) = yearOfEra doe /\
   dayOfMarchYear (doe + 1) = dayOfMarchYear doe + 1) \/
  (yearOfEra (doe + 1) = yearOfEra doe + 1 /\
   dayOfMarchYear (doe + 1) = 0 /\ 364 <= dayOfMarchYear doe).
Proof.
  intros H0 H1.
  pose proof (year_bracket doe ltac:(lia)) as B.
  pose proof (year_bracket (doe + 1) ltac:(lia)) as B'.
  unfold dayOfMarchYear. cbv zeta in *.
  set (y := yearOfEra doe) in *. set (y' := yearOfEra (doe + 1)) in *.
  clearbody y y'.
  assert (y' = y \/ y' = y + 1) as [->| ->] by zdiv.
  - left. split; lia.
  - right. split; [reflexivity|]. zdiv.
Qed.

Lemma marchMonth_step doy : 0 <= doy ->
  marchMonth (doy + 1) = marchMonth doy \/ marchMonth (doy + 1) = marchMonth doy + 1.
Proof. unfold marchMonth. intros. zdiv. Qed.

Lemma monthOfEra_step doe : 0 <= doe < 146096 ->
  12 * yearOfEra (doe + 1) + marchMonth (dayOfMarchYear (doe + 1))
  = 12 * yearOfEra doe + marchMonth (dayOfMarchYear doe) \/
  12 * yearOfEra (doe + 1) + marchMonth (dayOfMarchYear (doe + 1))
  = 12 * yearOfEra doe + marchMonth (dayOfMarchYear doe) + 1.
Proof.
  intros H.
  destruct (Z.eq_dec doe 146095) as [->|Hne]; [left; reflexivity|].
  pose proof (dayOfMarchYear_range doe ltac:(lia)) as R.
  pose proof (dayOfMarchYear_range (doe + 1) ltac:(lia)) as R'.
  destruct (year_step doe ltac:(lia) ltac:(lia)) as [[Hy Hd]|[Hy [Hd Hl]]];
    rewrite Hy, Hd.
  - destruct (marchMonth_step (dayOfMarchYear doe) ltac:(lia)) as [->| ->]; lia.
  - assert (marchMonth (dayOfMarchYear doe) = 11) as -> by (unfold marchMonth; zdiv).
    change (marchMonth 0) with 0. lia.
Qed.

Lemma absMonthDay_era n :
  12 * YearFromDay n + MonthFromDay n
  = 4800 * eraOfDay n + 12 * yearOfEra (dayOfEra n)
    + marchMonth (dayOfMarchYear (dayOfEra n)) + 2.
Proof.
  unfold YearFromDay, MonthFromDay. cbv zeta.
  destruct (Z.ltb_spec (marchMonth (dayOfMarchYear (dayOfEra n))) 10); lia.
Qed.

Lemma absMonthDay_step n :
  12 * YearFromDay (n + 1) + MonthFromDay (n + 1)
  = 12 * YearFromDay n + MonthFromDay n \/
  12 * YearFromDay (n + 1) + MonthFromDay (n + 1)
  = 12 * YearFromDay n + MonthFromDay n + 1.
Proof.
  rewrite !absMonthDay_era.
  pose proof (dayOfEra_range n) as R.
  destruct (Z.eq_dec (dayOfEra n) 146096) as [E|NE].
  - assert (dayOfEra (n + 1) = 0 /\ eraOfDay (n + 1) = eraOfDay n + 1) as [E1 E2].
    { revert E. unfold dayOfEra, eraOfDay, daysPerEra, eraShift. zdiv. }
    rewrite E, E1, E2.
    assert (A1 : 12 * yearOfEra 0 + marchMonth (dayOfMarchYear 0) = 0)
      by reflexivity.
    assert (A2 : 12 * yearOfEra 146096 + marchMonth (dayOfMarchYear 146096) = 4799)
      by reflexivity.
    lia.
  - assert (dayOfEra (n + 1) = dayOfEra n + 1 /\ eraOfDay (n + 1) = eraOfDay n) as [E1 E2].
    { revert NE. unfold dayOfEra, eraOfDay, daysPerEra, eraShift. zdiv. }
    rewrite E1, E2.
    pose proof (monthOfEra_step (dayOfEra n) ltac:(lia)) as S. lia.
Qed.

Lemma absMonth_next t :
  absMonth (t + msPerDay) = absMonth t \/ absMonth (t + msPerDay) = absMonth t + 1.
Proof.
  unfold absMonth, YearFromTime, MonthFromTime.
  replace (Day (t + msPerDay)) with (Day t + 1)
    by (rewrite <- (Day_add t 1); f_equal; lia).
  apply absMonthDay_step.
Qed.

Lemma absMonth_getMonth t : getMonth t = absMonth t mod 12.
Proof.
  unfold absMonth, getMonth. pose proof (MonthFromDay_range (Day t)).
  unfold MonthFromTime in *. zdiv.
Qed.

(** Consecutive days are in the same calendar month exactly when [getMonth]
    agrees on them. *)
Lemma absMonth_next_same t :
  getMonth (t + msPerDay) = getMonth t <-> absMonth (t + msPerDay) = absMonth t.
Proof.
  rewrite !absMonth_getMonth.
  destruct (absMonth_next t) as [E|E]; rewrite E; split; intros H;
    first [lia | revert H; zdiv].
Qed.

(** ** [getDay] *)

Lemma sum_fold (A : Type) (g : A -> Z) (keep : A -> bool)
    (l : list A) (acc : Z) :
  fold_left (fun acc x => if keep x then acc + g x else acc) l acc
  = acc + sumZ (map g (filter keep l)).
Proof.
  revert acc. induction l as [|x l IH]; intros acc; simpl.
  - lia.
  - rewrite IH. destruct (keep x); simpl; lia.
Qed.

Section GetDay.
Context `{DL : DateLib}.

Lemma getDay_date data offset startDate startDayOfMonth :
  adate (getDay data offset startDate startDayOfMonth)
  = setDate startDate (startDayOfMonth + offset).
Proof. reflexivity. Qed.

Lemma getDay_fold (data : list Observation) (d next : Date) :
  next = d + msPerDay ->
  fold_left (fun acc obj =>
      let datapoint := normalizeDate (odate obj) in
      if (d <=? datapoint) && (datapoint <? next)
      then acc + ovalue obj
      else acc) data 0
  = sumZ (map ovalue (filter (onDay d) data)).
Proof.
  intros ->. exact (sum_fold _ ovalue (onDay d) data 0).
Qed.

Lemma getDay_value data offset startDate startDayOfMonth :
  avalue (getDay data offset startDate startDayOfMonth)
  = sumZ (map ovalue
            (filter (onDay (setDate startDate (startDayOfMonth + offset))) data)).
Proof.
  unfold getDay. cbn [avalue]. apply getDay_fold.
  rewrite (setDate_getDate _ 1). lia.
Qed.


(** In [getCalendar] the day of the month handed to [getDay] is that of the
    start date, and the day at [offset] is [offset] days after the start. *)
Lemma getDay_date_offset data offset startDate :
  adate (getDay data offset startDate (getDate startDate))
  = startDate + offset * msPerDay.
Proof. rewrite getDay_date. apply setDate_getDate. Qed.

End GetDay.

(** ** [getCalendar] *)

Lemma fold_max_shift (a b : Z) (l : list Z) :
  fold_right Z.max (Z.max a b) l = Z.max b (fold_right Z.max a l).
Proof. induction l as [|x l IH]; simpl; [lia | rewrite IH; lia]. Qed.

Lemma running_max (days : list DayValue) (m : Z) :
  fold_left (fun max day => if avalue day >? max then avalue day else max) days m
  = fold_right Z.max m (map avalue days).
Proof.
  revert m. induction days as [|d days IH]; intros m; simpl; [reflexivity|].
  rewrite IH. rewrite <- fold_max_shift. f_equal.
  destruct (Z.gtb_spec (avalue d) m); lia.
Qed.

Lemma contiguous_offsets (cal : list DayEntry) (s : Date) :
  (forall i d, nth_error cal i = Some d -> date d = s + Z.of_nat i * msPerDay) ->
  contiguous cal.
Proof.
  revert s. induction cal as [|d cal IH]; intros s Hd; [constructor|].
  destruct cal as [|d' cal]; [constructor|].
  pose proof (Hd 0%nat d eq_refl) as H0.
  pose proof (Hd 1%nat d' eq_refl) as H1.
  constructor; [lia|].
  apply (IH (s + msPerDay)). intros i x Hx.
  rewrite (Hd (S i) x Hx). lia.
Qed.

Lemma nth_error_map_seq (A : Type) (f : nat -> A) (n i : nat) (x : A) :
  nth_error (map f (seq 0 n)) i = Some x -> (i < n)%nat /\ x = f i.
Proof.
  rewrite nth_error_map, nth_error_seq.
  destruct (Nat.ltb_spec i n); simpl; [|discriminate].
  intros [= <-]. auto.
Qed.

Section GetCalendar.
Context `{DL : DateLib}.
Variables (now1 now2 : Date) (colors : list string) (data : list Observation).
Variables (emptyColor : string) (endDate startDate : option DateLike).
Variable (view : string).

(** What [getCalendar] returns, in terms of the widened range [(s, e)]. *)
Lemma getCalendar_range (s e : Date) (cal : list DayEntry) :
  widenDates view (resolveDates now1 now2 endDate startDate) = (s, e) ->
  getCalendar now1 now2 colors data emptyColor endDate startDate view = Some cal ->
  0 <= (e - s) / msPerDay + 1 /\
  List.length cal = Z.to_nat ((e - s) / msPerDay + 1) /\
  forall i d, nth_error cal i = Some d ->
    date d = s + Z.of_nat i * msPerDay /\
    value d = sumZ (map ovalue (filter (onDay (date d)) data)) /\
    color d = or_else (getColor colors (calendarMax cal) (value d)) emptyColor.
Proof.
  intros Hw Hc. unfold getCalendar in Hc. rewrite Hw in Hc.
  change 86400000 with msPerDay in Hc.
  destruct (Z.ltb_spec ((e - s) / msPerDay + 1) 0) as [Hneg|Hpos];
    [discriminate|].
  injection Hc as <-.
  set (n := Z.to_nat ((e - s) / msPerDay + 1)).
  set (days := map (fun offset => getDay data (Z.of_nat offset) s (getDate s))
                   (seq 0 n)).
  split; [exact Hpos|]. split.
  - unfold days. rewrite !length_map, length_seq. reflexivity.
  - intros i d Hi.
    assert (Hmax : fold_left
                     (fun max day => if avalue day >? max then avalue day else max)
                     days 0
                   = calendarMax
                       (map (fun d0 =>
                               {| color := or_else
                                    (getColor colors
                                       (fold_left (fun max day =>
                                          if avalue day >? max then avalue day else max)
                                          days 0) (avalue d0)) emptyColor;
                                  date := adate d0; value := avalue d0 |}) days)).
    { rewrite running_max. unfold calendarMax. rewrite map_map. reflexivity. }
    rewrite <- Hmax. clear Hmax.
    unfold days in Hi at 2. rewrite map_map in Hi.
    apply nth_error_map_seq in Hi as [_ ->]. cbn [date value color].
    rewrite getDay_date_offset, getDay_value.
    rewrite setDate_getDate. auto.
Qed.

(** [getCalendar] throws exactly when the widened range spans a negative
    number of days. *)
Lemma getCalendar_returns (s e : Date) :
  widenDates view (resolveDates now1 now2 endDate startDate) = (s, e) ->
  0 <= (e - s) / msPerDay + 1 ->
  exists cal,
    getCalendar now1 now2 colors data emptyColor endDate startDate view = Some cal.
Proof.
  intros Hw Hpos. unfold getCalendar. rewrite Hw.
  change 86400000 with msPerDay.
  destruct (Z.ltb_spec ((e - s) / msPerDay + 1) 0); [lia|]. eexists. reflexivity.
Qed.

End GetCalendar.

(** ** The instance [SpecDateLib] *)

(** The boundary functions of the instance in closed form: the week of [d]
    runs from the Sunday on or before [d] to the Saturday on or after it. *)
Lemma SpecDateLib_week (d : Date) :
  getWeekStart (DateLib := SpecDateLib) d = MakeDate (Day d - WeekDay d) 0 /\
  getWeekEnd (DateLib := SpecDateLib) d = MakeDate (Day d + 6 - WeekDay d) 0.
Proof.
  cbn [getWeekStart getWeekEnd SpecDateLib]. unfold newDate.
  unfold YearFromTime, MonthFromTime, DateFromTime.
  replace (DateFromDay (Day d) - WeekDay d)
    with (DateFromDay (Day d) + (- WeekDay d)) by lia.
  rewrite !MakeDay_civil. split; f_equal; lia.
Qed.

(** All four boundary functions of the instance return midnight. *)
Lemma SpecDateLib_midnight (view : string) (range : Date * Date) :
  TimeWithinDay (fst (widenDates (DL := SpecDateLib) view range)) = 0 /\
  TimeWithinDay (snd (widenDates (DL := SpecDateLib) view range)) = 0.
Proof.
  destruct range as [s e]. unfold widenDates.
  destruct (String.eqb view "monthly"); cbn [fst snd];
    cbn [getWeekStart getWeekEnd getMonthStart getMonthEnd SpecDateLib];
    unfold newDate; split; apply TimeWithinDay_MakeDate; unfold msPerDay; lia.
Qed.

(** With the instance, a weekly range spans a whole number of weeks. *)
Lemma SpecDateLib_whole_weeks (s0 e0 : Date) :
  ((getWeekEnd (DateLib := SpecDateLib) e0
    - getWeekStart (DateLib := SpecDateLib) s0) / msPerDay + 1) mod 7 = 0.
Proof.
  destruct (SpecDateLib_week s0) as [-> _].
  destruct (SpecDateLib_week e0) as [_ ->].
  unfold MakeDate, WeekDay, msPerDay.
  generalize (Day s0) (Day e0). intros a b.
  replace ((b + 6 - (b + 4) mod 7) * 86400000 + 0
           - ((a - (a + 4) mod 7) * 86400000 + 0))
    with ((b + 6 - (b + 4) mod 7 - (a - (a + 4) mod 7)) * 86400000) by lia.
  rewrite Z.div_mul by lia. zdiv.
Qed.

(** ** The model on known dates and on the test suite *)

Example civil_epoch :
  (YearFromTime 0, MonthFromTime 0, DateFromTime 0, WeekDay 0) = (1970, 0, 1, 4).
Proof. reflexivity. Qed.

Example civil_leap_day :
  let t := newDate 2000 1 29 in
  (YearFromTime t, MonthFromTime t, DateFromTime t, YearFromTime (t + msPerDay),
   MonthFromTime (t + msPerDay), DateFromTime (t + msPerDay))
  = (2000, 1, 29, 2000, 2, 1).
Proof. vm_compute. reflexivity. Qed.

Example civil_before_epoch :
  (YearFromTime (-1), MonthFromTime (-1), DateFromTime (-1)) = (1969, 11, 31).
Proof. vm_compute. reflexivity. Qed.

Example setDate_carries : setDate (jan2020 31) 32 = newDate 2020 1 1.
Proof. vm_compute. reflexivity. Qed.

(** The tests "weekly start and end dates" and "monthly start and end
    dates": 15 to 16 January 2020 widens to 12 to 18 January, and to 1 to 31
    January. *)
Example getCalendar_weekly_range :
  option_map (fun cal => (hd_error (map date cal), List.length cal))
    (getCalendar 0 0 [] [] "#000" (Some (jan2020 16)) (Some (jan2020 15)) "weekly")
  = Some (Some (jan2020 12), 7%nat).
Proof. vm_compute. reflexivity. Qed.

Example getCalendar_monthly_range :
  option_map (fun cal => (hd_error (map date cal), List.length cal))
    (getCalendar 0 0 [] [] "#000" (Some (jan2020 16)) (Some (jan2020 15)) "monthly")
  = Some (Some (jan2020 1), 31%nat).
Proof. vm_compute. reflexivity. Qed.

(** ** Properties of [getDay] and [getCalendar] *)


(** The test "aggregates values": observations of 1 and 2 on 15 January
    and of 5 on 16 January, over the week of 12 to 18 January 2020. *)
Example getCalendar_aggregates :
  option_map (map value)
    (getCalendar 0 0 [] testData "#000" (Some (jan2020 16)) (Some (jan2020 15))
                 "weekly")
  = Some [0; 0; 0; 3; 5; 0; 0].
Proof. vm_compute. reflexivity. Qed.





(** ** [getColor] *)

Lemma fraction_le (a b c d : Z) : 0 < b -> 0 < d ->
  (fraction a b <= fraction c d)%Q <-> a * d <= c * b.
Proof.
  intros Hb Hd. unfold fraction.
  destruct b as [|b|b]; try lia. destruct d as [|d|d]; try lia.
  unfold Qle, Qdiv, Qmult, Qinv, inject_Z. cbn.
  rewrite !Z.mul_1_r. reflexivity.
Qed.

Lemma lt_div (a b c d : Z) : 0 < b -> 0 < d ->
  lt (div a b) (div c d) = true <-> ~ (fraction c d <= fraction a b)%Q.
Proof.
  intros Hb Hd. unfold div, fraction.
  destruct (Z.eqb_spec b 0); [lia|]. destruct (Z.eqb_spec d 0); [lia|].
  cbn [lt]. unfold Qltb. rewrite negb_true_iff, <- not_true_iff_false, Qle_bool_iff.
  reflexivity.
Qed.

Lemma index_lt (A : Type) (arr : list A) (i : nat) :
  (i < List.length arr)%nat -> exists a, nth_error arr i = Some a /\ index arr i = Val a.
Proof.
  intros Hi. unfold index.
  destruct (nth_error arr i) as [a|] eqn:E.
  - exists a. auto.
  - apply nth_error_None in E. lia.
Qed.

(** The loop returns the entry just below the first boundary, from [i] on,
    that the intensity is below, or the last entry when there is none. *)
Lemma getColor_loop_spec (colors : list string) (intencity : number) :
  forall (fuel i : nat) (color : nullable string),
    (i + fuel = List.length colors)%nat -> (1 <= i)%nat ->
    color = index colors (i - 1) ->
    exists k : nat,
      (i - 1 <= k < List.length colors)%nat /\
      getColor_loop colors intencity i fuel color = index colors k /\
      (forall j, (i <= j <= k)%nat ->
         lt intencity (div (Z.of_nat j) (Z.of_nat (List.length colors))) = false) /\
      ((k + 1 < List.length colors)%nat ->
         lt intencity (div (Z.of_nat (k + 1)) (Z.of_nat (List.length colors))) = true).
Proof.
  induction fuel as [|fuel IH]; intros i color Hlen Hi Hcolor.
  - exists (List.length colors - 1)%nat. cbn [getColor_loop].
    split; [lia|]. split; [reflexivity|]. split; intros; lia.
  - cbn [getColor_loop].
    destruct (lt intencity (div (Z.of_nat i) (Z.of_nat (List.length colors))))
      eqn:Hlt.
    + exists (i - 1)%nat.
      split; [lia|]. split; [exact Hcolor|]. split; [intros; lia|].
      intros _. replace (i - 1 + 1)%nat with i by lia. exact Hlt.
    + destruct (IH (S i) (index colors i)) as (k & Hk & Hres & Hlow & Hup);
        try lia.
      { replace (S i - 1)%nat with i by lia. reflexivity. }
      exists k.
      split; [lia|]. split; [exact Hres|]. split; [|exact Hup].
      intros j Hj. destruct (Nat.eq_dec j i) as [->|Hne]; [exact Hlt|].
      apply Hlow. lia.
Qed.

Lemma getColor_guard (colors : list string) (max value : Z) :
  colors <> [] -> value <> 0 ->
  getColor colors max value
  = getColor_loop colors (div value max) 1 (List.length colors - 1) (index colors 0).
Proof.
  intros Hc Hv. unfold getColor.
  destruct colors as [|c colors]; [congruence|].
  destruct (Z.eqb_spec value 0); [lia|]. reflexivity.
Qed.

Lemma getColor_entry (colors : list string) (max value : Z) :
  colors <> [] -> value <> 0 ->
  exists (k : nat) (c : string),
    nth_error colors k = Some c /\ getColor colors max value = Val c /\
    (forall j, (1 <= j <= k)%nat ->
       lt (div value max) (div (Z.of_nat j) (Z.of_nat (List.length colors))) = false) /\
    ((k + 1 < List.length colors)%nat ->
       lt (div value max)
          (div (Z.of_nat (k + 1)) (Z.of_nat (List.length colors))) = true).
Proof.
  intros Hc Hv. rewrite getColor_guard by assumption.
  assert (Hlen : (0 < List.length colors)%nat)
    by (destruct colors; [congruence | simpl; lia]).
  destruct (getColor_loop_spec colors (div value max) (List.length colors - 1) 1
              (index colors 0)) as (k & Hk & Hres & Hlow & Hup);
    try lia; [reflexivity|].
  destruct (index_lt _ colors k) as (c & Hnth & Hidx); [lia|].
  exists k, c. rewrite Hres, Hidx. auto.
Qed.



Example getColor_buckets :
  map (getColor ["a"; "b"; "c"]%string 6) [1; 2; 3; 4; 5; 6]
  = [Val "a"; Val "b"; Val "b"; Val "c"; Val "c"; Val "c"]%string.
Proof. vm_compute. reflexivity. Qed.

(** C5, as stated, fails in its last part: [getCalendar] applies [||] to
    the result of [getColor], and the empty string is falsy.  With the scale
    whose only entry is the empty string, [getColor] returns that entry for a
    positive value,
    not [null], and the calendar entry still gets the default color. *)
Lemma getCalendar_substitutes_for_empty_string :
  getColor [EmptyString] 5 3 = Val EmptyString /\
  option_map (map (fun d => (value d, color d)))
    (getCalendar 0 0 [EmptyString] testData "#000" (Some (jan2020 16))
                 (Some (jan2020 15)) "weekly")
  = Some [(0, "#000"); (0, "#000"); (0, "#000"); (3, "#000"); (5, "#000");
          (0, "#000"); (0, "#000")]%string.
Proof. split; vm_compute; reflexivity. Qed.

(** C5, amended: [getColor] returns [null] if and only if the scale is empty
    or the value is zero, and an element of the scale in every other case;
    [getCalendar] gives an entry the default color when [getColor] returns
    [null] and also when it returns an empty string, and the color
    returned by [getColor] otherwise. *)
Theorem getColor_null_iff `{DL : DateLib} (now1 now2 : Date)
    (colors : list string) (data : list Observation) (emptyColor : string)
    (endDate startDate : option DateLike) (view : string) :
  (forall max value,
     (getColor colors max value = Null <-> colors = [] \/ value = 0) /\
     (getColor colors max value <> Null ->
      exists c, In c colors /\ getColor colors max value = Val c)) /\
  match getCalendar now1 now2 colors data emptyColor endDate startDate view with
  | Some cal =>
      forall d, In d cal ->
        color d
        = match getColor colors (calendarMax cal) (value d) with
          | Val c => if String.eqb c EmptyString then emptyColor else c
          | _ => emptyColor
          end
  | None => True
  end.
Proof.
  split.
  - intros max value.
    destruct colors as [|c0 colors'] eqn:Ec.
    { split; [split; auto|]. intros Hn. exfalso. apply Hn. reflexivity. }
    rewrite <- Ec. assert (Hne : colors <> []) by (rewrite Ec; discriminate).
    clear Ec. destruct (Z.eq_dec value 0) as [->|Hv].
    { assert (Hnull : getColor colors max 0 = Null).
      { unfold getColor. rewrite andb_false_r. reflexivity. }
      split; [split; auto|]. intros Hn. exfalso. apply Hn. exact Hnull. }
    destruct (getColor_entry colors max value Hne Hv) as (k & c & Hnth & Hres & _).
    split.
    + split; [rewrite Hres; discriminate|]. intros [H|H]; contradiction.
    + intros _. exists c. split; [apply (nth_error_In _ _ Hnth) | exact Hres].
  - destruct (getCalendar now1 now2 colors data emptyColor endDate startDate view)
      as [cal|] eqn:Hcal; [|exact I].
    intros d Hd.
    destruct (widenDates view (resolveDates now1 now2 endDate startDate))
      as [s e] eqn:Hw.
    destruct (getCalendar_range _ _ _ _ _ _ _ _ s e cal Hw Hcal) as (_ & _ & Hnth).
    destruct (In_nth_error _ _ Hd) as [i Hi].
    destruct (Hnth i d Hi) as (_ & _ & Hcolor). rewrite Hcolor.
    destruct (getColor colors (calendarMax cal) (value d)) as [| |c]; try reflexivity.
    unfold or_else, truthy. destruct (String.eqb c EmptyString); reflexivity.
Qed.

(** ** The row chunkers: the accumulator in closed form *)

Lemma push_last_snoc (front : list Row) (r : Row) (x : DayEntry) :
  push_last (front ++ [r]) x = Some (front ++ [push r x]).
Proof.
  induction front as [|r0 front IH]; [reflexivity|].
  cbn [app push_last]. rewrite IH.
  destruct (front ++ [r]) eqn:E; [destruct front; discriminate|].
  reflexivity.
Qed.

Lemma segment_ext (keep keep' : DayEntry -> bool) :
  (forall x, keep x = keep' x) ->
  forall marked r, segment keep r marked = segment keep' r marked.
Proof.
  intros Hk. induction marked as [|[new x] marked IH]; intros r; [reflexivity|].
  cbn [segment]. rewrite Hk, !IH. reflexivity.
Qed.

(** Filtering commutes with the pass: the rows built from the kept entries
    are the rows built from all entries, each filtered. *)
Lemma segment_filter (keep : DayEntry -> bool) :
  forall marked r,
    segment keep (filter keep r) marked
    = map (filter keep) (segment (fun _ => true) r marked).
Proof.
  induction marked as [|[new x] marked IH]; intros r; [reflexivity|].
  cbn [segment]. destruct new.
  - cbn [map]. f_equal. rewrite <- IH. cbn [filter].
    destruct (keep x); reflexivity.
  - rewrite <- IH, filter_app. cbn [filter].
    destruct (keep x); reflexivity.
Qed.

Lemma segment_concat :
  forall marked r,
    List.concat (segment (fun _ => true) r marked) = r ++ map snd marked.
Proof.
  induction marked as [|[new x] marked IH]; intros r; cbn [segment map snd].
  - cbn. reflexivity.
  - destruct new.
    + cbn [List.concat]. rewrite IH. reflexivity.
    + rewrite IH, <- app_assoc. reflexivity.
Qed.

Lemma segment_nonempty :
  forall marked r,
    r <> [] -> Forall (fun row => row <> []) (segment (fun _ => true) r marked).
Proof.
  induction marked as [|[new x] marked IH]; intros r Hr; cbn [segment].
  - constructor; [exact Hr | constructor].
  - destruct new.
    + constructor; [exact Hr|]. apply IH. discriminate.
    + apply IH. destruct r; discriminate.
Qed.

Lemma filter_nonEmpty_id (rows : list Row) :
  Forall (fun row => row <> []) rows -> filter nonEmpty rows = rows.
Proof.
  induction 1 as [|row rows Hrow _ IH]; [reflexivity|].
  cbn [filter]. rewrite IH. destruct row; [congruence | reflexivity].
Qed.

Lemma filter_nonEmpty_Forall (rows : list Row) :
  Forall (fun row => (0 < List.length row)%nat) (filter nonEmpty rows).
Proof.
  apply Forall_forall. intros row Hin. apply filter_In in Hin as [_ Hne].
  destruct row; [discriminate | simpl; lia].
Qed.

Lemma concat_filter_nonEmpty (rows : list Row) :
  List.concat (filter nonEmpty rows) = List.concat rows.
Proof.
  induction rows as [|row rows IH]; [reflexivity|].
  cbn [filter List.concat]. destruct row; cbn [nonEmpty List.length Nat.eqb negb];
    cbn [List.concat]; rewrite IH; reflexivity.
Qed.

Lemma concat_map_filter (keep : DayEntry -> bool) (rows : list Row) :
  List.concat (map (filter keep) rows) = filter keep (List.concat rows).
Proof.
  induction rows as [|row rows IH]; [reflexivity|].
  cbn [map List.concat]. rewrite filter_app, IH. reflexivity.
Qed.

Lemma weekMarks_snd (cal : list DayEntry) : forall i, map snd (weekMarks i cal) = cal.
Proof. induction cal as [|x cal IH]; intros i; cbn; [|rewrite IH]; reflexivity. Qed.

Lemma monthMarks_snd (cal : list DayEntry) :
  forall pm, map snd (monthMarks pm cal) = cal.
Proof. induction cal as [|x cal IH]; intros pm; cbn; [|rewrite IH]; reflexivity. Qed.

(** The accumulator of [chunkWeeks] after the entries [cal], met at index
    [i] with a non-empty accumulator. *)
Lemma reduce_weeks (keep : DayEntry -> bool) :
  forall (cal : list DayEntry) (i : nat) (front : list Row) (r : Row),
    reduce_from (weekStep keep) cal i (front ++ [r])
    = Some (front ++ segment keep r (weekMarks i cal)).
Proof.
  induction cal as [|x cal IH]; intros i front r; [reflexivity|].
  cbn [reduce_from weekMarks segment]. unfold weekStep at 1. cbv zeta.
  destruct (i mod 7 =? 0)%nat.
  - unfold push. destruct (keep x).
    + rewrite push_last_snoc. cbn [bind]. unfold push. cbn [app].
      rewrite (IH (S i) (front ++ [r]) [x]), <- app_assoc. reflexivity.
    + cbn [bind]. rewrite (IH (S i) (front ++ [r]) []), <- app_assoc.
      reflexivity.
  - destruct (keep x).
    + rewrite push_last_snoc. cbn [bind]. unfold push. apply IH.
    + cbn [bind]. rewrite app_nil_r. apply IH.
Qed.

(** The accumulator of [chunkMonths], likewise. *)
Lemma reduce_months (keep : DayEntry -> bool) :
  forall (cal : list DayEntry) (i : nat) (pm : Z) (front : list Row) (r : Row),
    exists pm',
      reduce_from (monthStep keep) cal i (pm, front ++ [r])
      = Some (pm', front ++ segment keep r (monthMarks pm cal)).
Proof.
  induction cal as [|x cal IH]; intros i pm front r; [exists pm; reflexivity|].
  cbn [reduce_from monthMarks segment]. unfold monthStep at 1. cbv zeta.
  destruct (Z.eqb_spec pm (getMonth (date x))) as [E|NE]; cbn [negb].
  - rewrite <- E. destruct (keep x).
    + rewrite push_last_snoc. cbn [bind]. unfold push. apply IH.
    + cbn [bind]. rewrite app_nil_r. apply IH.
  - unfold push. destruct (keep x).
    + rewrite push_last_snoc. cbn [bind]. unfold push. cbn [app].
      destruct (IH (S i) (getMonth (date x)) (front ++ [r]) [x]) as [pm' H].
      exists pm'. rewrite H, <- app_assoc. reflexivity.
    + cbn [bind].
      destruct (IH (S i) (getMonth (date x)) (front ++ [r]) []) as [pm' H].
      exists pm'. rewrite H, <- app_assoc. reflexivity.
Qed.

Lemma reduce_weeks_start (keep : DayEntry -> bool) (cal : list DayEntry) :
  reduce (weekStep keep) cal [] = Some (tl (segment keep [] (weekMarks 0 cal))).
Proof.
  destruct cal as [|x cal]; [reflexivity|].
  unfold reduce. cbn [reduce_from weekMarks segment tl].
  unfold weekStep at 1. cbv zeta.
  change (0 mod 7 =? 0)%nat with true. cbv iota. unfold push. cbn [app].
  destruct (keep x).
  - cbn [push_last bind]. unfold push. cbn [app].
    apply (reduce_weeks keep cal 1 [] [x]).
  - cbn [bind]. apply (reduce_weeks keep cal 1 [] []).
Qed.

Lemma reduce_months_start (keep : DayEntry -> bool) (cal : list DayEntry) :
  exists pm',
    reduce (monthStep keep) cal (-1, [])
    = Some (pm', tl (segment keep [] (monthMarks (-1) cal))).
Proof.
  destruct cal as [|x cal]; [exists (-1); reflexivity|].
  unfold reduce. cbn [reduce_from monthMarks segment tl].
  unfold monthStep at 1. cbv zeta.
  pose proof (getMonth_range (date x)) as Hm.
  destruct (Z.eqb_spec (-1) (getMonth (date x))) as [E|NE]; [lia|].
  cbn [negb]. unfold push. cbn [app].
  destruct (keep x).
  - cbn [push_last bind]. unfold push. cbn [app].
    apply (reduce_months keep cal 1 (getMonth (date x)) [] [x]).
  - cbn [bind]. apply (reduce_months keep cal 1 (getMonth (date x)) [] []).
Qed.

(** The rows before the final [filter], in terms of the rows built when
    every entry is kept. *)
Lemma rows_shape (keep : DayEntry -> bool) (marked : list (bool * DayEntry)) :
  match marked with [] => True | (new, _) :: _ => new = true end ->
  let groups := tl (segment (fun _ => true) [] marked) in
  tl (segment keep [] marked) = map (filter keep) groups /\
  List.concat groups = map snd marked /\
  Forall (fun row => row <> []) groups.
Proof.
  destruct marked as [|[new x] marked]; intros Hstart; cbv zeta.
  - cbn. repeat split. constructor.
  - subst new. cbn [segment tl]. split; [|split].
    + rewrite <- segment_filter. cbn [filter]. destruct (keep x); reflexivity.
    + rewrite segment_concat. reflexivity.
    + apply segment_nonempty. discriminate.
Qed.

Section Chunkers.
Context `{DL : DateLib}.
Variables (allowOverflow : bool) (calendar : list DayEntry).
Variables (endDate startDate : option DateLike).

Lemma included_spec (day : DayEntry) :
  included allowOverflow endDate startDate day = true <->
  allowOverflow = true \/
  (match startDate with None => True | Some s => normalizeDate s <= date day end /\
   match endDate with None => True | Some e => date day <= normalizeDate e end).
Proof.
  unfold included, inBounds, normalizeArg.
  rewrite orb_true_iff, andb_true_iff.
  destruct startDate as [s|], endDate as [e|]; cbn [option_map];
    rewrite ?Z.leb_le; intuition.
Qed.

Lemma chunkWeeks_closed :
  chunkWeeks allowOverflow calendar endDate startDate
  = Some (filter nonEmpty
            (tl (segment (included allowOverflow endDate startDate) []
                         (weekMarks 0 calendar)))).
Proof.
  unfold chunkWeeks. cbv zeta.
  change (bind (reduce (weekStep (included allowOverflow endDate startDate))
                       calendar [])
               (fun acc => Some (filter nonEmpty acc))
          = Some (filter nonEmpty
                    (tl (segment (included allowOverflow endDate startDate) []
                                 (weekMarks 0 calendar))))).
  rewrite reduce_weeks_start. reflexivity.
Qed.

Lemma chunkMonths_closed :
  chunkMonths allowOverflow calendar endDate startDate
  = Some (filter nonEmpty
            (tl (segment (included allowOverflow endDate startDate) []
                         (monthMarks (-1) calendar)))).
Proof.
  unfold chunkMonths. cbv zeta.
  change (bind (reduce (monthStep (included allowOverflow endDate startDate))
                       calendar (-1, []))
               (fun '(_, acc) => Some (filter nonEmpty acc))
          = Some (filter nonEmpty
                    (tl (segment (included allowOverflow endDate startDate) []
                                 (monthMarks (-1) calendar))))).
  destruct (reduce_months_start (included allowOverflow endDate startDate) calendar)
    as [pm' ->].
  reflexivity.
Qed.

Lemma weekMarks_start :
  match weekMarks 0 calendar with [] => True | (new, _) :: _ => new = true end.
Proof. destruct calendar; [exact I | reflexivity]. Qed.

Lemma monthMarks_start :
  match monthMarks (-1) calendar with [] => True | (new, _) :: _ => new = true end.
Proof.
  destruct calendar as [|x cal]; [exact I|]. cbn [monthMarks].
  pose proof (getMonth_range (date x)).
  destruct (Z.eqb_spec (-1) (getMonth (date x))); [lia | reflexivity].
Qed.

End Chunkers.

(** Both chunkers return; what they return is the rows they build when
    nothing is filtered out ([groups], the result for [allowOverflow = true]),
    each row filtered by the inclusion test, with the empty rows removed. *)
Lemma chunk_shape `{DL : DateLib} (chunk : bool -> list DayEntry ->
      option DateLike -> option DateLike -> option (list Row))
    (marks : list DayEntry -> list (bool * DayEntry)) :
  (forall ao cal e s,
     chunk ao cal e s
     = Some (filter nonEmpty (tl (segment (included ao e s) [] (marks cal))))) ->
  (forall cal, match marks cal with [] => True | (new, _) :: _ => new = true end) ->
  (forall cal, map snd (marks cal) = cal) ->
  forall ao cal e s,
    let groups := tl (segment (fun _ => true) [] (marks cal)) in
    (forall e' s', chunk true cal e' s' = Some groups) /\
    chunk ao cal e s
    = Some (filter nonEmpty (map (filter (included ao e s)) groups)) /\
    List.concat groups = cal /\
    Forall (fun row => row <> []) groups.
Proof.
  intros Hclosed Hstart Hsnd ao cal e s groups.
  destruct (rows_shape (included ao e s) (marks cal) (Hstart cal))
    as (Hkeep & Hconcat & Hne).
  fold groups in Hkeep, Hconcat, Hne.
  split; [|split; [|split]].
  - intros e' s'. rewrite Hclosed.
    rewrite (segment_ext (included true e' s') (fun _ => true)) by reflexivity.
    fold groups. rewrite filter_nonEmpty_id by exact Hne. reflexivity.
  - rewrite Hclosed, Hkeep. reflexivity.
  - rewrite Hconcat. apply Hsnd.
  - exact Hne.
Qed.

Lemma chunkWeeks_shape `{DL : DateLib} (ao : bool) (cal : list DayEntry)
    (e s : option DateLike) :
  let groups := tl (segment (fun _ => true) [] (weekMarks 0 cal)) in
  (forall e' s', chunkWeeks true cal e' s' = Some groups) /\
  chunkWeeks ao cal e s
  = Some (filter nonEmpty (map (filter (included ao e s)) groups)) /\
  List.concat groups = cal /\
  Forall (fun row => row <> []) groups.
Proof.
  apply (chunk_shape chunkWeeks (weekMarks 0)).
  - intros. apply chunkWeeks_closed.
  - intros. apply weekMarks_start.
  - intros. apply weekMarks_snd.
Qed.

Lemma chunkMonths_shape `{DL : DateLib} (ao : bool) (cal : list DayEntry)
    (e s : option DateLike) :
  let groups := tl (segment (fun _ => true) [] (monthMarks (-1) cal)) in
  (forall e' s', chunkMonths true cal e' s' = Some groups) /\
  chunkMonths ao cal e s
  = Some (filter nonEmpty (map (filter (included ao e s)) groups)) /\
  List.concat groups = cal /\
  Forall (fun row => row <> []) groups.
Proof.
  apply (chunk_shape chunkMonths (monthMarks (-1))).
  - intros. apply chunkMonths_closed.
  - intros. apply monthMarks_start.
  - intros. apply monthMarks_snd.
Qed.

(** ** Properties of the row chunkers *)

(** C2: for every calendar, flag and bounds, [chunkWeeks] and
    [chunkMonths] return rows that are all non-empty.  The rows are the
    unfiltered rows (the result for [allowOverflow = true]), each filtered by
    the inclusion test, with the rows left empty dropped; filtering keeps
    the order of the surviving entries, and the rows put end to end are the
    included entries of the calendar in calendar order. *)
Theorem chunks_have_no_empty_row `{DL : DateLib} (allowOverflow : bool)
    (calendar : list DayEntry) (endDate startDate : option DateLike) :
  (exists rows groups,
     chunkWeeks allowOverflow calendar endDate startDate = Some rows /\
     chunkWeeks true calendar endDate startDate = Some groups /\
     Forall (fun row => (0 < List.length row)%nat) rows /\
     rows = filter (fun row => negb (List.length row =? 0)%nat)
              (map (filter (included allowOverflow endDate startDate)) groups) /\
     List.concat rows = filter (included allowOverflow endDate startDate) calendar) /\
  (exists rows groups,
     chunkMonths allowOverflow calendar endDate startDate = Some rows /\
     chunkMonths true calendar endDate startDate = Some groups /\
     Forall (fun row => (0 < List.length row)%nat) rows /\
     rows = filter (fun row => negb (List.length row =? 0)%nat)
              (map (filter (included allowOverflow endDate startDate)) groups) /\
     List.concat rows = filter (included allowOverflow endDate startDate) calendar).
Proof.
  split.
  - destruct (chunkWeeks_shape allowOverflow calendar endDate startDate)
      as (Htrue & Hrows & Hconcat & _).
    eexists. eexists. split; [exact Hrows|]. split; [apply Htrue|].
    split; [apply filter_nonEmpty_Forall|]. split; [reflexivity|].
    rewrite concat_filter_nonEmpty, concat_map_filter, Hconcat. reflexivity.
  - destruct (chunkMonths_shape allowOverflow calendar endDate startDate)
      as (Htrue & Hrows & Hconcat & _).
    eexists. eexists. split; [exact Hrows|]. split; [apply Htrue|].
    split; [apply filter_nonEmpty_Forall|]. split; [reflexivity|].
    rewrite concat_filter_nonEmpty, concat_map_filter, Hconcat. reflexivity.
Qed.

(** C6: for both chunkers, an entry of the calendar is in the returned rows
    if and only if [allowOverflow] is true or its date lies between the
    bounds, each bound normalized by [normalizeDate] on its own and an absent
    bound not restricting. *)
Theorem chunks_include_within_bounds `{DL : DateLib} (allowOverflow : bool)
    (calendar : list DayEntry) (endDate startDate : option DateLike) :
  let within (day : DayEntry) :=
    match startDate with None => True | Some s => normalizeDate s <= date day end /\
    match endDate with None => True | Some e => date day <= normalizeDate e end in
  (exists rows,
     chunkWeeks allowOverflow calendar endDate startDate = Some rows /\
     forall day, In day (List.concat rows) <->
                 In day calendar /\ (allowOverflow = true \/ within day)) /\
  (exists rows,
     chunkMonths allowOverflow calendar endDate startDate = Some rows /\
     forall day, In day (List.concat rows) <->
                 In day calendar /\ (allowOverflow = true \/ within day)).
Proof.
  cbv zeta. split.
  - destruct (chunkWeeks_shape allowOverflow calendar endDate startDate)
      as (_ & Hrows & Hconcat & _).
    eexists. split; [exact Hrows|]. intros day.
    rewrite concat_filter_nonEmpty, concat_map_filter, Hconcat, filter_In.
    rewrite included_spec. reflexivity.
  - destruct (chunkMonths_shape allowOverflow calendar endDate startDate)
      as (_ & Hrows & Hconcat & _).
    eexists. split; [exact Hrows|]. intros day.
    rewrite concat_filter_nonEmpty, concat_map_filter, Hconcat, filter_In.
    rewrite included_spec. reflexivity.
Qed.

(** C10: with [allowOverflow = true] the rows returned by [chunkWeeks], and
    those returned by [chunkMonths], put end to end are the input
    calendar. *)
Theorem chunks_partition_calendar `{DL : DateLib} (calendar : list DayEntry)
    (endDate startDate : option DateLike) :
  (exists rows, chunkWeeks true calendar endDate startDate = Some rows /\
                List.concat rows = calendar) /\
  (exists rows, chunkMonths true calendar endDate startDate = Some rows /\
                List.concat rows = calendar).
Proof.
  split.
  - destruct (chunkWeeks_shape true calendar endDate startDate)
      as (Htrue & _ & Hconcat & _).
    eexists. split; [apply Htrue | exact Hconcat].
  - destruct (chunkMonths_shape true calendar endDate startDate)
      as (Htrue & _ & Hconcat & _).
    eexists. split; [apply Htrue | exact Hconcat].
Qed.

(** ** Week rows *)


(** Rows built by index: when the open row [r] holds the entries since the
    last multiple of 7, row [k] is the [k]-th block of seven of [r ++ cal]. *)
Lemma segment_weeks :
  forall (cal : list DayEntry) (i : nat) (r : Row),
    (1 <= List.length r <= 7)%nat ->
    (i mod 7 = List.length r mod 7)%nat ->
    forall k,
      nth_error (segment (fun _ => true) r (weekMarks i cal)) k
      = if (7 * k <? List.length (r ++ cal))%nat
        then Some (firstn 7 (skipn (7 * k) (r ++ cal)))
        else None.
Proof.
  induction cal as [|x cal IH]; intros i r Hlen Hmod k.
  - cbn [weekMarks segment]. rewrite app_nil_r.
    destruct k as [|k].
    + cbn [nth_error]. rewrite Nat.mul_0_r.
      destruct (Nat.ltb_spec 0 (List.length r)); [|lia].
      cbn [skipn]. rewrite firstn_all2 by lia. reflexivity.
    + destruct (Nat.ltb_spec (7 * S k) (List.length r)); [lia|].
      cbn [nth_error]. destruct k; reflexivity.
  - cbn [weekMarks segment].
    destruct (Nat.eqb_spec (i mod 7) 0) as [E|NE].
    + assert (Hr : List.length r = 7%nat) by ndiv.
      destruct k as [|k].
      * cbn [nth_error]. rewrite length_app, Nat.mul_0_r.
        destruct (Nat.ltb_spec 0 (List.length r + List.length (x :: cal)));
          [|lia].
        cbn [skipn]. rewrite firstn_app, Hr, Nat.sub_diag, firstn_O.
        rewrite app_nil_r, firstn_all2 by lia. reflexivity.
      * cbn [nth_error].
        rewrite (IH (S i) [x] ltac:(simpl; lia) ltac:(cbn [List.length]; ndiv) k).
        rewrite !length_app, Hr.
        replace (skipn (7 * S k) (r ++ x :: cal)) with (skipn (7 * k) ([x] ++ cal)).
        2:{ rewrite (skipn_app (7 * S k) r), Hr.
            rewrite (@skipn_all2 _ (7 * S k) r) by lia.
            cbn [app]. f_equal. lia. }
        destruct (Nat.ltb_spec (7 * k) (List.length [x] + List.length cal));
          destruct (Nat.ltb_spec (7 * S k) (7 + List.length (x :: cal)));
          cbn [List.length] in *; try lia; reflexivity.
    + assert (Hr : (List.length r <= 6)%nat) by ndiv.
      rewrite (IH (S i) (r ++ [x])
                 ltac:(rewrite length_app; simpl; lia)
                 ltac:(rewrite length_app; cbn [List.length]; ndiv) k).
      rewrite <- app_assoc. reflexivity.
Qed.

Lemma weeks_by_index (cal : list DayEntry) (k : nat) :
  nth_error (tl (segment (fun _ => true) [] (weekMarks 0 cal))) k
  = if (7 * k <? List.length cal)%nat
    then Some (firstn 7 (skipn (7 * k) cal))
    else None.
Proof.
  destruct cal as [|x cal].
  - cbn [weekMarks segment tl List.length].
    destruct (Nat.ltb_spec (7 * k) 0); [lia|]. destruct k; reflexivity.
  - cbn [weekMarks segment tl].
    change (0 mod 7 =? 0)%nat with true. cbv iota. cbn [tl].
    apply (segment_weeks cal 1 [x]); [simpl; lia | reflexivity].
Qed.

(** C7, as stated, fails: a calendar whose length is not a multiple of 7
    ends with a shorter row.  A calendar of one entry gives one row of one
    entry. *)
Lemma chunkWeeks_short_last_row :
  ~ (forall (calendar : list DayEntry) (rows : list Row),
       chunkWeeks (DL := SpecDateLib) true calendar None None = Some rows ->
       Forall (fun row => List.length row = 7%nat) rows).
Proof.
  intros H.
  specialize (H [ {| color := "#000"; date := jan2020 15; value := 0 |} ] _ eq_refl).
  inversion H as [|row rows Hlen _]. discriminate Hlen.
Qed.

(** C7, amended: with [allowOverflow = true], row [k] of [chunkWeeks] is
    the [k]-th block of seven entries of the calendar by index, whatever the
    dates: every row but the last has exactly 7 entries, the last one has 1
    to 7, and all rows have exactly 7 when the length of the calendar is a
    multiple of 7. *)
Theorem chunkWeeks_blocks_of_seven `{DL : DateLib} (calendar : list DayEntry)
    (endDate startDate : option DateLike) :
  exists rows,
    chunkWeeks true calendar endDate startDate = Some rows /\
    (forall k,
       nth_error rows k
       = if (7 * k <? List.length calendar)%nat
         then Some (firstn 7 (skipn (7 * k) calendar))
         else None) /\
    (forall k row, nth_error rows k = Some row ->
       (1 <= List.length row <= 7)%nat /\
       ((S k < List.length rows)%nat -> List.length row = 7%nat)) /\
    ((List.length calendar mod 7 = 0)%nat ->
     Forall (fun row => List.length row = 7%nat) rows).
Proof.
  destruct (chunkWeeks_shape true calendar endDate startDate) as (Htrue & _).
  eexists. split; [apply Htrue|].
  set (rows := tl (segment (fun _ => true) [] (weekMarks 0 calendar))).
  assert (Hnth : forall k,
             nth_error rows k
             = if (7 * k <? List.length calendar)%nat
               then Some (firstn 7 (skipn (7 * k) calendar))
               else None) by (intros k; apply weeks_by_index).
  assert (Hrow : forall k row, nth_error rows k = Some row ->
             (7 * k < List.length calendar)%nat /\
             List.length row = Nat.min 7 (List.length calendar - 7 * k)).
  { intros k row Hk. rewrite Hnth in Hk.
    destruct (Nat.ltb_spec (7 * k) (List.length calendar)); [|discriminate].
    assert (Hrow : row = firstn 7 (skipn (7 * k) calendar)) by congruence.
    split; [assumption|].
    rewrite Hrow, length_firstn, length_skipn. reflexivity. }
  split; [exact Hnth|]. split.
  - intros k row Hk. destruct (Hrow k row Hk) as [Hlt Hlen].
    split; [lia|]. intros Hnext.
    assert (Hs : nth_error rows (S k) <> None) by (apply nth_error_Some; exact Hnext).
    rewrite Hnth in Hs.
    destruct (Nat.ltb_spec (7 * S k) (List.length calendar)); [lia|congruence].
  - intros Hmod. apply Forall_forall. intros row Hin.
    destruct (In_nth_error _ _ Hin) as [k Hk].
    destruct (Hrow k row Hk) as [Hlt Hlen]. rewrite Hlen.
    revert Hmod Hlt. generalize (List.length calendar). intros n Hmod Hlt. ndiv.
Qed.

(** ** Month rows *)

Lemma segment_prefix (keep : DayEntry -> bool) :
  forall marked (a b : Row),
    segment keep (a ++ b) marked
    = (a ++ hd [] (segment keep b marked)) :: tl (segment keep b marked).
Proof.
  induction marked as [|[new x] marked IH]; intros a b; cbn [segment];
    [reflexivity|].
  destruct new; [reflexivity|]. rewrite <- app_assoc. apply IH.
Qed.

Lemma monthRuns_cons (x : DayEntry) (rest : list DayEntry) :
  monthRuns (x :: rest)
  = match monthRuns rest with
    | (y :: row) :: rows =>
        if getMonth (date x) =? getMonth (date y)
        then (x :: y :: row) :: rows
        else [x] :: (y :: row) :: rows
    | _ => [[x]]
    end.
Proof. reflexivity. Qed.

(** The unfiltered month rows are the rows of the specification. *)
Lemma monthRuns_segment (x : DayEntry) (cal : list DayEntry) :
  monthRuns (x :: cal)
  = segment (fun _ => true) [x] (monthMarks (getMonth (date x)) cal).
Proof.
  revert x. induction cal as [|y cal IH]; intros x; [reflexivity|].
  rewrite monthRuns_cons, IH.
  pose proof (segment_prefix (fun _ => true)
                (monthMarks (getMonth (date y)) cal) [y] []) as Py.
  pose proof (segment_prefix (fun _ => true)
                (monthMarks (getMonth (date y)) cal) [x; y] []) as Pxy.
  cbn [app] in Py, Pxy.
  cbn [monthMarks segment app]. rewrite Py.
  destruct (Z.eqb_spec (getMonth (date x)) (getMonth (date y))); cbn [negb].
  - rewrite Pxy. reflexivity.
  - reflexivity.
Qed.

Lemma monthRuns_groups (cal : list DayEntry) :
  tl (segment (fun _ => true) [] (monthMarks (-1) cal)) = monthRuns cal.
Proof.
  destruct cal as [|x cal]; [reflexivity|].
  rewrite monthRuns_segment. cbn [monthMarks segment].
  pose proof (getMonth_range (date x)).
  destruct (Z.eqb_spec (-1) (getMonth (date x))); [lia | reflexivity].
Qed.

(** On a contiguous calendar the rows lie in strictly ascending calendar
    months, one month per row. *)
Lemma segment_months :
  forall (cal : list DayEntry) (r : Row) (y : DayEntry),
    contiguous (y :: cal) ->
    (forall d, In d r -> absMonth (date d) = absMonth (date y)) ->
    let rows := segment (fun _ => true) r (monthMarks (getMonth (date y)) cal) in
    Forall oneMonth rows /\
    StronglySorted monthBefore rows /\
    (forall row d, In row rows -> In d row ->
       absMonth (date y) <= absMonth (date d)).
Proof.
  induction cal as [|x cal IH]; intros r y Hc Hr; cbv zeta.
  - cbn [monthMarks segment]. split; [|split].
    + constructor; [|constructor]. intros d d' Hd Hd'.
      rewrite (Hr d Hd), (Hr d' Hd'). reflexivity.
    + constructor; constructor.
    + intros row d [<-|[]] Hd. rewrite (Hr d Hd). lia.
  - inversion Hc as [| |? ? ? Hnext Hc']; subst.
    cbn [monthMarks segment].
    pose proof (absMonth_next_same (date y)) as Hsame.
    pose proof (absMonth_next (date y)) as Hstep.
    rewrite <- Hnext in Hsame, Hstep.
    destruct (Z.eqb_spec (getMonth (date y)) (getMonth (date x))) as [E|NE];
      cbn [negb].
    + assert (Hm : absMonth (date x) = absMonth (date y))
        by (apply Hsame; symmetry; exact E).
      destruct (IH (r ++ [x]) x Hc') as (Hone & Hsorted & Hlow).
      { intros d Hd. apply in_app_or in Hd as [Hd|[<-|[]]]; [|reflexivity].
        rewrite (Hr d Hd). symmetry. exact Hm. }
      cbv zeta in Hone, Hsorted, Hlow.
      split; [exact Hone|]. split; [exact Hsorted|].
      intros row d Hrow Hd. rewrite <- Hm. apply (Hlow row d Hrow Hd).
    + assert (Hm : absMonth (date x) = absMonth (date y) + 1).
      { destruct Hstep as [Hs|Hs]; [|exact Hs].
        exfalso. apply NE. symmetry. apply Hsame. exact Hs. }
      destruct (IH [x] x Hc') as (Hone & Hsorted & Hlow).
      { intros d [<-|[]]. reflexivity. }
      cbv zeta in Hone, Hsorted, Hlow.
      split; [|split].
      * constructor; [|exact Hone]. intros d d' Hd Hd'.
        rewrite (Hr d Hd), (Hr d' Hd'). reflexivity.
      * constructor; [exact Hsorted|]. apply Forall_forall.
        intros row Hrow d d' Hd Hd'. rewrite (Hr d Hd).
        specialize (Hlow row d' Hrow Hd'). lia.
      * intros row d [<-|Hrow] Hd.
        -- rewrite (Hr d Hd). lia.
        -- specialize (Hlow row d Hrow Hd). lia.
Qed.

Lemma monthRuns_months (cal : list DayEntry) :
  contiguous cal ->
  Forall oneMonth (monthRuns cal) /\ StronglySorted monthBefore (monthRuns cal).
Proof.
  intros Hc. destruct cal as [|x cal]; [split; constructor|].
  rewrite monthRuns_segment.
  destruct (segment_months cal [x] x Hc) as (Hone & Hsorted & _).
  { intros d [<-|[]]. reflexivity. }
  split; assumption.
Qed.

Lemma filtered_months (keep : DayEntry -> bool) (groups : list Row) :
  Forall oneMonth groups -> StronglySorted monthBefore groups ->
  Forall oneMonth (filter nonEmpty (map (filter keep) groups)) /\
  StronglySorted monthBefore (filter nonEmpty (map (filter keep) groups)).
Proof.
  intros Hone Hsorted.
  assert (Hsub : forall g d, In d (filter keep g) -> In d g)
    by (intros g d Hd; apply filter_In in Hd; tauto).
  split.
  - apply Forall_forall. intros row Hrow.
    apply filter_In in Hrow as [Hrow _].
    apply in_map_iff in Hrow as (g & <- & Hg).
    rewrite Forall_forall in Hone. specialize (Hone g Hg).
    intros d d' Hd Hd'. apply Hone; apply Hsub; assumption.
  - induction Hsorted as [|g groups Hsorted IH Hall]; [constructor|].
    inversion Hone as [|? ? Hg Hone']; subst.
    cbn [map filter].
    destruct (nonEmpty (filter keep g)); [|exact (IH Hone')].
    constructor; [exact (IH Hone')|].
    apply Forall_forall. intros row Hrow.
    apply filter_In in Hrow as [Hrow _].
    apply in_map_iff in Hrow as (g' & <- & Hg').
    rewrite Forall_forall in Hall. specialize (Hall g' Hg').
    intros d d' Hd Hd'. apply Hall; apply Hsub; assumption.
Qed.

Lemma StronglySorted_nth (A : Type) (R : A -> A -> Prop) (l : list A) :
  StronglySorted R l ->
  forall i j a b, (i < j)%nat ->
    nth_error l i = Some a -> nth_error l j = Some b -> R a b.
Proof.
  induction 1 as [|x l Hs IH Hall]; intros i j a b Hij Hi Hj.
  - destruct i; discriminate.
  - destruct j as [|j]; [lia|]. cbn [nth_error] in Hj.
    destruct i as [|i].
    + cbn [nth_error] in Hi. injection Hi as <-.
      rewrite Forall_forall in Hall. apply Hall.
      apply (nth_error_In _ _ Hj).
    + cbn [nth_error] in Hi. apply (IH i j); [lia | assumption | assumption].
Qed.

Lemma contiguous_nth (cal : list DayEntry) :
  contiguous cal ->
  forall i d d', nth_error cal i = Some d -> nth_error cal (S i) = Some d' ->
    date d' = date d + msPerDay.
Proof.
  induction 1 as [|d0|d0 d1 l Hnext Hc IH]; intros i d d' Hi Hi'.
  - destruct i; discriminate.
  - destruct i; discriminate.
  - destruct i as [|i].
    + cbn in Hi, Hi'. congruence.
    + apply (IH i); assumption.
Qed.

(** C8: on a contiguous calendar, [chunkMonths] starts a row at the first
    entry and at every entry whose [getMonth] differs from that of the entry
    before it, which on consecutive days is exactly a change of calendar
    month; every returned row lies in one calendar month, and rows at
    different positions lie in different, ascending calendar months, so no
    month is split over two rows and no row merges two months. *)
Theorem chunkMonths_one_month_per_row `{DL : DateLib} (allowOverflow : bool)
    (calendar : list DayEntry) (endDate startDate : option DateLike) :
  contiguous calendar ->
  exists rows groups,
    chunkMonths allowOverflow calendar endDate startDate = Some rows /\
    chunkMonths true calendar endDate startDate = Some groups /\
    groups = monthRuns calendar /\
    (forall i d d',
       nth_error calendar i = Some d -> nth_error calendar (S i) = Some d' ->
       (getMonth (date d') = getMonth (date d) <->
        absMonth (date d') = absMonth (date d))) /\
    Forall oneMonth rows /\
    (forall k1 k2 r1 r2,
       nth_error rows k1 = Some r1 -> nth_error rows k2 = Some r2 ->
       (k1 < k2)%nat -> monthBefore r1 r2) /\
    (forall k1 k2 r1 r2 d1 d2,
       nth_error rows k1 = Some r1 -> nth_error rows k2 = Some r2 ->
       In d1 r1 -> In d2 r2 ->
       absMonth (date d1) = absMonth (date d2) -> k1 = k2).
Proof.
  intros Hc.
  destruct (chunkMonths_shape allowOverflow calendar endDate startDate)
    as (Htrue & Hrows & _).
  rewrite monthRuns_groups in Htrue, Hrows.
  destruct (monthRuns_months calendar Hc) as [Hone Hsorted].
  destruct (filtered_months (included allowOverflow endDate startDate)
              (monthRuns calendar) Hone Hsorted) as [Hone' Hsorted'].
  set (rows := filter nonEmpty
                 (map (filter (included allowOverflow endDate startDate))
                      (monthRuns calendar))) in *.
  assert (Hlt : forall k1 k2 r1 r2,
             nth_error rows k1 = Some r1 -> nth_error rows k2 = Some r2 ->
             (k1 < k2)%nat -> monthBefore r1 r2).
  { intros k1 k2 r1 r2 H1 H2 Hk.
    apply (StronglySorted_nth _ _ _ Hsorted' k1 k2 r1 r2 Hk H1 H2). }
  exists rows, (monthRuns calendar).
  split; [exact Hrows|]. split; [apply Htrue|]. split; [reflexivity|].
  split; [|split; [exact Hone'|split; [exact Hlt|]]].
  - intros i d d' Hi Hi'. rewrite (contiguous_nth calendar Hc i d d' Hi Hi').
    apply absMonth_next_same.
  - intros k1 k2 r1 r2 d1 d2 H1 H2 Hd1 Hd2 Heq.
    destruct (Nat.lt_trichotomy k1 k2) as [Hk|[Hk|Hk]]; [|exact Hk|].
    + pose proof (Hlt k1 k2 r1 r2 H1 H2 Hk d1 d2 Hd1 Hd2). lia.
    + pose proof (Hlt k2 k1 r2 r1 H2 H1 Hk d2 d1 Hd2 Hd1). lia.
Qed.

Lemma chunkMonths_one_month_per_row_witness :
  exists rows groups,
    chunkMonths (DL := SpecDateLib) false testCalendar (Some (jan2020 31)) None
    = Some rows /\
    chunkMonths (DL := SpecDateLib) true testCalendar (Some (jan2020 31)) None
    = Some groups /\
    groups = monthRuns testCalendar /\
    (forall i d d',
       nth_error testCalendar i = Some d -> nth_error testCalendar (S i) = Some d' ->
       (getMonth (date d') = getMonth (date d) <->
        absMonth (date d') = absMonth (date d))) /\
    Forall oneMonth rows /\
    (forall k1 k2 r1 r2,
       nth_error rows k1 = Some r1 -> nth_error rows k2 = Some r2 ->
       (k1 < k2)%nat -> monthBefore r1 r2) /\
    (forall k1 k2 r1 r2 d1 d2,
       nth_error rows k1 = Some r1 -> nth_error rows k2 = Some r2 ->
       In d1 r1 -> In d2 r2 ->
       absMonth (date d1) = absMonth (date d2) -> k1 = k2).
Proof.
  apply (chunkMonths_one_month_per_row (DL := SpecDateLib) false testCalendar
           (Some (jan2020 31)) None).
  unfold testCalendar.
  constructor; [vm_compute; reflexivity|].
  constructor; [vm_compute; reflexivity|].
  constructor.
Defined.

Example chunkMonths_test_calendar :
  option_map (map (map (fun d => DateFromTime (date d))))
    (chunkMonths (DL := SpecDateLib) true testCalendar None None)
  = Some [[30; 31]; [1]].
Proof. vm_compute. reflexivity. Qed.

Example chunkWeeks_clipped :
  option_map (map (map (fun d => DateFromTime (date d))))
    (chunkWeeks (DL := SpecDateLib) false testCalendar (Some (jan2020 31))
                (Some (jan2020 31)))
  = Some [[31]].
Proof. vm_compute. reflexivity. Qed.

(** * Further properties *)

(** ** [getColor]: the bucket in closed form *)

(** The comparisons of the loop as integer inequalities. *)
Lemma getColor_entry_Z (colors : list string) (max value : Z) :
  colors <> [] -> 0 < max -> value <> 0 ->
  let N := Z.of_nat (List.length colors) in
  exists (k : nat) (c : string),
    nth_error colors k = Some c /\ getColor colors max value = Val c /\
    (forall j, (1 <= j <= k)%nat -> Z.of_nat j * max <= value * N) /\
    ((k + 1 < List.length colors)%nat -> value * N < Z.of_nat (k + 1) * max).
Proof.
  intros Hc Hmax Hv N.
  assert (HN : 0 < N) by (unfold N; destruct colors; [congruence | simpl; lia]).
  destruct (getColor_entry colors max value Hc Hv)
    as (k & c & Hnth & Hres & Hlow & Hup).
  exists k, c. split; [exact Hnth|]. split; [exact Hres|]. split.
  - intros j Hj. specialize (Hlow j Hj). fold N in Hlow.
    apply (proj1 (fraction_le _ _ _ _ HN Hmax)).
    destruct (Qlt_le_dec (fraction value max) (fraction (Z.of_nat j) N))
      as [Hlt|Hge]; [|exact Hge].
    exfalso. apply not_true_iff_false in Hlow. apply Hlow.
    apply lt_div; try assumption. apply Qlt_not_le. exact Hlt.
  - intros Hk. specialize (Hup Hk). fold N in Hup.
    apply lt_div in Hup; try assumption.
    apply Z.nle_gt. intros Hle. apply Hup.
    apply (proj2 (fraction_le _ _ _ _ HN Hmax)). exact Hle.
Qed.

Lemma getColor_index (colors : list string) (max value : Z) :
  colors <> [] -> 0 < max -> 0 < value ->
  let N := Z.of_nat (List.length colors) in
  getColor colors max value
  = index colors (Z.to_nat (Z.min (N - 1) (value * N / max))).
Proof.
  intros Hc Hmax Hvalue N.
  destruct (getColor_entry_Z colors max value Hc Hmax ltac:(lia))
    as (k & c & Hnth & Hres & Hlow & Hup).
  fold N in Hlow, Hup.
  assert (Hk : (k < List.length colors)%nat)
    by (apply nth_error_Some; congruence).
  assert (HkN : Z.of_nat k <= N - 1) by (unfold N; lia).
  assert (Hq1 : Z.of_nat k <= value * N / max).
  { apply Z.div_le_lower_bound; [exact Hmax|].
    destruct (Nat.eq_dec k 0) as [->|Hk0].
    - change (Z.of_nat 0) with 0. rewrite Z.mul_0_r.
      apply Z.mul_nonneg_nonneg; unfold N; lia.
    - specialize (Hlow k ltac:(lia)). lia. }
  assert (Hmin : Z.min (N - 1) (value * N / max) = Z.of_nat k).
  { destruct (Nat.lt_ge_cases (k + 1) (List.length colors)) as [Hlt|Hge].
    - specialize (Hup Hlt).
      assert (value * N / max < Z.of_nat (k + 1)).
      { apply Z.div_lt_upper_bound; [exact Hmax|]. lia. }
      lia.
    - assert (Z.of_nat k = N - 1) by (unfold N; lia). lia. }
  rewrite Hmin, Nat2Z.id, Hres. unfold index. rewrite Hnth. reflexivity.
Qed.



(** X2: [getColor] is monotone in the value: for a non-empty scale and
    [max > 0], a larger positive value never gets an entry at a lower
    index. *)
Theorem getColor_monotone (colors : list string) (max v1 v2 : Z) :
  colors <> [] -> 0 < max -> 0 < v1 -> v1 <= v2 ->
  exists (i1 i2 : nat) (c1 c2 : string),
    (i1 <= i2)%nat /\
    nth_error colors i1 = Some c1 /\ getColor colors max v1 = Val c1 /\
    nth_error colors i2 = Some c2 /\ getColor colors max v2 = Val c2.
Proof.
  intros Hc Hmax Hv1 Hv12.
  set (N := Z.of_nat (List.length colors)).
  assert (HN : 0 < N) by (unfold N; destruct colors; [congruence | simpl; lia]).
  pose proof (getColor_index colors max v1 Hc Hmax Hv1) as H1.
  pose proof (getColor_index colors max v2 Hc Hmax ltac:(lia)) as H2.
  fold N in H1, H2.
  destruct (getColor_entry colors max v1 Hc ltac:(lia)) as (k1 & c1 & _ & R1 & _).
  destruct (getColor_entry colors max v2 Hc ltac:(lia)) as (k2 & c2 & _ & R2 & _).
  exists (Z.to_nat (Z.min (N - 1) (v1 * N / max))),
         (Z.to_nat (Z.min (N - 1) (v2 * N / max))), c1, c2.
  assert (Hdiv : v1 * N / max <= v2 * N / max).
  { apply Z.div_le_mono; [exact Hmax|]. apply Z.mul_le_mono_nonneg_r; lia. }
  split; [lia|].
  rewrite R1 in H1. rewrite R2 in H2. unfold index in H1, H2.
  destruct (nth_error colors (Z.to_nat (Z.min (N - 1) (v1 * N / max))));
    [|discriminate].
  destruct (nth_error colors (Z.to_nat (Z.min (N - 1) (v2 * N / max))));
    [|discriminate].
  repeat split; congruence.
Qed.

Lemma getColor_monotone_witness :
  exists (i1 i2 : nat) (c1 c2 : string),
    (i1 <= i2)%nat /\
    nth_error ["a"; "b"; "c"]%string i1 = Some c1 /\
    getColor ["a"; "b"; "c"]%string 6 2 = Val c1 /\
    nth_error ["a"; "b"; "c"]%string i2 = Some c2 /\
    getColor ["a"; "b"; "c"]%string 6 5 = Val c2.
Proof.
  apply (getColor_monotone ["a"; "b"; "c"]%string 6 2 5).
  - discriminate.
  - lia.
  - lia.
  - lia.
Defined.

Lemma getColor_last (colors : list string) (max value : Z) :
  colors <> [] -> 0 < value -> 0 <= max <= value ->
  exists c,
    nth_error colors (List.length colors - 1) = Some c /\
    getColor colors max value = Val c.
Proof.
  intros Hc Hvalue Hmax.
  assert (Hlen : (0 < List.length colors)%nat)
    by (destruct colors; [congruence | simpl; lia]).
  destruct (Z.eq_dec max 0) as [->|Hm].
  - destruct (getColor_entry colors 0 value Hc ltac:(lia))
      as (k & c & Hnth & Hres & _ & Hup).
    assert (Hk : (k < List.length colors)%nat)
      by (apply nth_error_Some; congruence).
    assert (Hinf : div value 0 = PosInfinity).
    { unfold div. cbn. destruct (Z.eqb_spec value 0); [lia|].
      destruct (Z.ltb_spec 0 value); [reflexivity | lia]. }
    destruct (Nat.lt_ge_cases (k + 1) (List.length colors)) as [Hlt|Hge].
    + specialize (Hup Hlt). rewrite Hinf in Hup. unfold lt in Hup.
      destruct (div (Z.of_nat (k + 1)) (Z.of_nat (List.length colors)));
        discriminate Hup.
    + exists c. replace (List.length colors - 1)%nat with k by lia. auto.
  - pose proof (getColor_index colors max value Hc ltac:(lia) Hvalue) as Hidx.
    cbv zeta in Hidx.
    set (N := Z.of_nat (List.length colors)) in *.
    assert (HN : 0 < N) by (unfold N; lia).
    assert (Hq : N <= value * N / max).
    { apply Z.div_le_lower_bound; [lia|]. nia. }
    replace (Z.to_nat (Z.min (N - 1) (value * N / max)))
      with (List.length colors - 1)%nat in Hidx by (unfold N in *; lia).
    destruct (index_lt _ colors (List.length colors - 1)) as (c & Hnth & Hi);
      [lia|].
    exists c. split; [exact Hnth|]. rewrite Hidx. exact Hi.
Qed.

(** X3: a positive value that reaches [max], also when [max] is 0 and the
    quotient is infinite, gets the last entry of a non-empty scale. *)
Theorem getColor_top_bucket (colors : list string) (max value : Z) :
  colors <> [] -> 0 < value -> 0 <= max <= value ->
  exists c,
    nth_error colors (List.length colors - 1) = Some c /\
    getColor colors max value = Val c.
Proof.
  intros Hc Hvalue Hmax.
  destruct (getColor_last colors max value Hc Hvalue Hmax) as (c & Hnth & Hres).
  exists c. split; assumption.
Qed.

Lemma getColor_top_bucket_witness :
  exists c,
    nth_error ["a"; "b"; "c"]%string (List.length ["a"; "b"; "c"]%string - 1)
    = Some c /\
    getColor ["a"; "b"; "c"]%string 0 4 = Val c.
Proof.
  apply (getColor_top_bucket ["a"; "b"; "c"]%string 0 4).
  - discriminate.
  - lia.
  - lia.
Defined.



(** ** [getDay]: the sum and the date *)




Section GetDayMore.
Context `{DL : DateLib}.



End GetDayMore.





(** ** [getCalendar]: values, maximum and colors *)

Lemma calendarMax_spec (cal : list DayEntry) :
  (forall d, In d cal -> value d <= calendarMax cal) /\
  0 <= calendarMax cal /\
  (calendarMax cal = 0 \/ exists d, In d cal /\ value d = calendarMax cal).
Proof.
  unfold calendarMax. induction cal as [|x cal (Hle & Hpos & Hatt)].
  - cbn. repeat split; [intros d []| lia | left; reflexivity].
  - cbn [map fold_right]. split; [|split].
    + intros d [<-|Hd]; [lia|]. specialize (Hle d Hd). lia.
    + lia.
    + destruct (Z.max_spec (value x) (fold_right Z.max 0 (map value cal)))
        as [[Hlt ->]|[Hge ->]].
      * destruct Hatt as [H0|(d & Hd & Hv)]; [left; exact H0|].
        right. exists d. split; [right; exact Hd | exact Hv].
      * right. exists x. split; [left; reflexivity | reflexivity].
Qed.

Lemma getColor_cases (colors : list string) (max value : Z) :
  (getColor colors max value = Null /\ (colors = [] \/ value = 0)) \/
  (exists c, In c colors /\ getColor colors max value = Val c).
Proof.
  destruct colors as [|c0 colors'] eqn:Ec; [left; split; auto|].
  rewrite <- Ec. assert (Hne : colors <> []) by (rewrite Ec; discriminate).
  clear Ec. destruct (Z.eq_dec value 0) as [->|Hv].
  - left. split; [|right; reflexivity].
    unfold getColor. rewrite andb_false_r. reflexivity.
  - right. destruct (getColor_entry colors max value Hne Hv)
      as (k & c & Hnth & Hres & _).
    exists c. split; [apply (nth_error_In _ _ Hnth) | exact Hres].
Qed.



Section GetCalendarMore.
Context `{DL : DateLib}.
Variables (now1 now2 : Date) (colors : list string) (data : list Observation).
Variables (emptyColor : string) (endDate startDate : option DateLike).
Variable (view : string).

Lemma getCalendar_entry (cal : list DayEntry) :
  getCalendar now1 now2 colors data emptyColor endDate startDate view = Some cal ->
  let s := fst (widenDates view (resolveDates now1 now2 endDate startDate)) in
  forall i d, nth_error cal i = Some d ->
    date d = s + Z.of_nat i * msPerDay /\
    value d = sumZ (map ovalue (filter (onDay (date d)) data)) /\
    color d = or_else (getColor colors (calendarMax cal) (value d)) emptyColor.
Proof.
  intros Hcal s.
  destruct (widenDates view (resolveDates now1 now2 endDate startDate))
    as [s' e'] eqn:Hw.
  destruct (getCalendar_range _ _ _ _ _ _ _ _ s' e' cal Hw Hcal) as (_ & _ & Hnth).
  exact Hnth.
Qed.


End GetCalendarMore.


(** X9: the maximum that scales the colors is the largest value of the
    calendar and at least 0: every entry's value is at most that maximum,
    the maximum is 0 or the value of some entry, and every entry's color is
    [getColor] of its value against it, or the default color. *)
Theorem getCalendar_max_is_largest_value `{DL : DateLib} (now1 now2 : Date)
    (colors : list string) (data : list Observation) (emptyColor : string)
    (endDate startDate : option DateLike) (view : string) :
  match getCalendar now1 now2 colors data emptyColor endDate startDate view with
  | Some cal =>
      exists max,
        0 <= max /\
        (max = 0 \/ exists d, In d cal /\ value d = max) /\
        forall d, In d cal ->
          value d <= max /\
          color d = or_else (getColor colors max (value d)) emptyColor
  | None => True
  end.
Proof.
  destruct (getCalendar now1 now2 colors data emptyColor endDate startDate view)
    as [cal|] eqn:Hcal; [|exact I].
  destruct (calendarMax_spec cal) as (Hle & Hpos & Hatt).
  exists (calendarMax cal). split; [exact Hpos|]. split; [exact Hatt|].
  intros d Hd. split; [apply Hle; exact Hd|].
  destruct (In_nth_error _ _ Hd) as [i Hi].
  apply (getCalendar_entry _ _ _ _ _ _ _ _ cal Hcal i d Hi).
Qed.

(** X10: with a non-empty scale, an entry whose value is positive and the
    largest of the calendar gets the last color of the scale (the default
    color if that last color is the empty string). *)
Theorem getCalendar_peak_gets_last_color `{DL : DateLib} (now1 now2 : Date)
    (colors : list string) (data : list Observation) (emptyColor : string)
    (endDate startDate : option DateLike) (view : string) :
  match getCalendar now1 now2 colors data emptyColor endDate startDate view with
  | Some cal =>
      forall d, In d cal -> 0 < value d ->
        (forall d', In d' cal -> value d' <= value d) ->
        colors <> [] ->
        exists c,
          nth_error colors (List.length colors - 1) = Some c /\
          color d = if String.eqb c EmptyString then emptyColor else c
  | None => True
  end.
Proof.
  destruct (getCalendar now1 now2 colors data emptyColor endDate startDate view)
    as [cal|] eqn:Hcal; [|exact I].
  intros d Hd Hpos Hmax Hc.
  destruct (calendarMax_spec cal) as (Hle & _ & Hatt).
  assert (HM : calendarMax cal = value d).
  { specialize (Hle d Hd). destruct Hatt as [H0|(d0 & Hd0 & Hv0)]; [lia|].
    specialize (Hmax d0 Hd0). lia. }
  destruct (In_nth_error _ _ Hd) as [i Hi].
  destruct (getCalendar_entry _ _ _ _ _ _ _ _ cal Hcal i d Hi) as (_ & _ & Hcolor).
  rewrite HM in Hcolor.
  destruct (getColor_last colors (value d) (value d) Hc Hpos ltac:(lia))
    as (c & Hnth & Hres).
  exists c. split; [exact Hnth|]. rewrite Hcolor, Hres.
  unfold or_else, truthy. destruct (String.eqb c EmptyString); reflexivity.
Qed.

(** X11: every entry's color is the default color or an entry of the
    scale; an entry of value 0 gets the default color, and so does every
    entry when the scale is empty. *)
Theorem getCalendar_color_range `{DL : DateLib} (now1 now2 : Date)
    (colors : list string) (data : list Observation) (emptyColor : string)
    (endDate startDate : option DateLike) (view : string) :
  match getCalendar now1 now2 colors data emptyColor endDate startDate view with
  | Some cal =>
      forall d, In d cal ->
        (color d = emptyColor \/ In (color d) colors) /\
        (value d = 0 \/ colors = [] -> color d = emptyColor)
  | None => True
  end.
Proof.
  destruct (getCalendar now1 now2 colors data emptyColor endDate startDate view)
    as [cal|] eqn:Hcal; [|exact I].
  intros d Hd. destruct (In_nth_error _ _ Hd) as [i Hi].
  destruct (getCalendar_entry _ _ _ _ _ _ _ _ cal Hcal i d Hi) as (_ & _ & Hcolor).
  rewrite Hcolor.
  destruct (getColor_cases colors (calendarMax cal) (value d))
    as [[Hnull Hwhy]|(c & Hin & Hres)].
  - rewrite Hnull. cbn. split; [left; reflexivity | reflexivity].
  - rewrite Hres. unfold or_else, truthy.
    destruct (String.eqb c EmptyString).
    + split; [left; reflexivity | reflexivity].
    + split; [right; exact Hin|].
      intros [Hv|Hc].
      * exfalso. revert Hres. unfold getColor. rewrite Hv, andb_false_r.
        discriminate.
      * exfalso. rewrite Hc in Hin. exact Hin.
Qed.



(** X13: any view other than ["monthly"] is the weekly view. *)
Theorem getCalendar_view_defaults_to_weekly `{DL : DateLib} (now1 now2 : Date)
    (colors : list string) (data : list Observation) (emptyColor : string)
    (endDate startDate : option DateLike) (view : string) :
  view <> "monthly"%string ->
  getCalendar now1 now2 colors data emptyColor endDate startDate view
  = getCalendar now1 now2 colors data emptyColor endDate startDate "weekly".
Proof.
  intros Hview. unfold getCalendar, widenDates.
  destruct (resolveDates now1 now2 endDate startDate) as [s0 e0].
  destruct (String.eqb_spec view "monthly"); [contradiction|].
  reflexivity.
Qed.

Lemma getCalendar_view_defaults_to_weekly_witness :
  getCalendar 0 0 [] testData "#000" (Some (jan2020 16)) (Some (jan2020 15))
              "yearly"
  = getCalendar 0 0 [] testData "#000" (Some (jan2020 16)) (Some (jan2020 15))
                "weekly".
Proof.
  apply (getCalendar_view_defaults_to_weekly (DL := SpecDateLib) 0 0 [] testData
           "#000" (Some (jan2020 16)) (Some (jan2020 15)) "yearly").
  discriminate.
Defined.

(** X14: [getCalendar] throws (the [RangeError] of a negative array length)
    exactly when the widened end lies more than a day before the widened
    start, and returns the empty calendar exactly when the end lies before
    the start by at most a day. *)
Theorem getCalendar_short_ranges `{DL : DateLib} (now1 now2 : Date)
    (colors : list string) (data : list Observation) (emptyColor : string)
    (endDate startDate : option DateLike) (view : string) :
  let s := fst (widenDates view (resolveDates now1 now2 endDate startDate)) in
  let e := snd (widenDates view (resolveDates now1 now2 endDate startDate)) in
  (getCalendar now1 now2 colors data emptyColor endDate startDate view = None
   <-> e - s < - msPerDay) /\
  (getCalendar now1 now2 colors data emptyColor endDate startDate view = Some []
   <-> - msPerDay <= e - s < 0).
Proof.
  cbv zeta.
  destruct (widenDates view (resolveDates now1 now2 endDate startDate))
    as [s e] eqn:Hw. cbn [fst snd].
  assert (Hneg : (e - s) / msPerDay + 1 < 0 <-> e - s < - msPerDay)
    by (unfold msPerDay; zdiv).
  assert (Hzero : (e - s) / msPerDay + 1 = 0 <-> - msPerDay <= e - s < 0)
    by (unfold msPerDay; zdiv).
  destruct (getCalendar now1 now2 colors data emptyColor endDate startDate view)
    as [cal|] eqn:Hcal.
  - destruct (getCalendar_range _ _ _ _ _ _ _ _ s e cal Hw Hcal) as (Hpos & Hlen & _).
    split.
    + split; [discriminate | lia].
    + rewrite <- Hzero. split.
      * intros [= ->]. cbn in Hlen. lia.
      * intros H0. rewrite H0 in Hlen. cbn in Hlen.
        destruct cal; [reflexivity | discriminate].
  - assert (Hlt : (e - s) / msPerDay + 1 < 0).
    { destruct (Z.lt_ge_cases ((e - s) / msPerDay + 1) 0) as [H|H]; [exact H|].
      destruct (getCalendar_returns now1 now2 colors data emptyColor endDate
                  startDate view s e Hw H) as [cal Hc].
      rewrite Hc in Hcal. discriminate Hcal. }
    split.
    + split; [intros _; apply Hneg; exact Hlt | reflexivity].
    + split; [discriminate | lia].
Qed.

(** ** The row chunkers: bounds, sizes and months *)

Lemma filter_none (A : Type) (keep : A -> bool) (l : list A) :
  filter keep l = [] <-> forall x, In x l -> keep x = false.
Proof.
  induction l as [|x l IH]; cbn [filter].
  - split; [intros _ y [] | reflexivity].
  - destruct (keep x) eqn:Hx.
    + split; [discriminate|]. intros H.
      rewrite (H x (or_introl eq_refl)) in Hx. discriminate Hx.
    + rewrite IH. split.
      * intros H y [<-|Hy]; [exact Hx | apply H; exact Hy].
      * intros H y Hy. apply H. right. exact Hy.
Qed.

Lemma concat_nonempty_rows (rows : list (list DayEntry)) :
  Forall (fun row => (0 < List.length row)%nat) rows ->
  (rows = [] <-> List.concat rows = []).
Proof.
  intros Hne. split; [intros ->; reflexivity|].
  destruct rows as [|row rows]; [reflexivity|].
  inversion Hne as [|? ? Hrow _]; subst.
  destruct row; [simpl in Hrow; lia | discriminate].
Qed.

Lemma groups_length (cal : list DayEntry) (groups : list (list DayEntry)) :
  (forall k,
     nth_error groups k
     = if (7 * k <? List.length cal)%nat
       then Some (firstn 7 (skipn (7 * k) cal))
       else None) ->
  Z.of_nat (List.length groups) = (Z.of_nat (List.length cal) + 6) / 7 /\
  Forall (fun row => (List.length row <= 7)%nat) groups.
Proof.
  intros Hnth. split.
  - assert (Hup : (List.length cal <= 7 * List.length groups)%nat).
    { assert (Hn : nth_error groups (List.length groups) = None)
        by (apply nth_error_None; lia).
      rewrite Hnth in Hn.
      destruct (Nat.ltb_spec (7 * List.length groups) (List.length cal));
        [discriminate | assumption]. }
    assert (Hlow : (0 < List.length groups ->
                    7 * (List.length groups - 1) < List.length cal)%nat).
    { intros Hpos.
      assert (Hs : nth_error groups (List.length groups - 1) <> None)
        by (apply nth_error_Some; lia).
      rewrite Hnth in Hs.
      destruct (Nat.ltb_spec (7 * (List.length groups - 1)) (List.length cal));
        [assumption | congruence]. }
    revert Hup Hlow. generalize (List.length groups) (List.length cal).
    intros g n Hup Hlow.
    destruct (Nat.eq_dec g 0) as [->|Hg]; [ndiv|].
    specialize (Hlow ltac:(lia)). ndiv.
  - apply Forall_forall. intros row Hin.
    destruct (In_nth_error _ _ Hin) as [k Hk]. rewrite Hnth in Hk.
    destruct (Nat.ltb_spec (7 * k) (List.length cal)); [|discriminate].
    assert (Hrow : row = firstn 7 (skipn (7 * k) cal)) by congruence.
    rewrite Hrow, length_firstn. lia.
Qed.

(** X15: without bounds nothing is filtered: for both chunkers the result
    for [allowOverflow = false] and no bounds is the result for
    [allowOverflow = true], whatever the bounds given with it. *)
Theorem chunks_without_bounds `{DL : DateLib} (calendar : list DayEntry)
    (endDate startDate : option DateLike) :
  chunkWeeks false calendar None None
  = chunkWeeks true calendar endDate startDate /\
  chunkMonths false calendar None None
  = chunkMonths true calendar endDate startDate.
Proof.
  rewrite !chunkWeeks_closed, !chunkMonths_closed.
  rewrite (segment_ext (included false None None)
                       (included true endDate startDate))
    by reflexivity.
  rewrite (segment_ext (included false None None)
                       (included true endDate startDate)
                       ltac:(intros x; reflexivity) (monthMarks (-1) calendar)).
  split; reflexivity.
Qed.

(** X16: each chunker returns the empty list of rows exactly when no entry
    of the calendar passes the inclusion test; in particular for an empty
    calendar. *)
Theorem chunks_empty_iff_nothing_included `{DL : DateLib} (allowOverflow : bool)
    (calendar : list DayEntry) (endDate startDate : option DateLike) :
  let excluded (day : DayEntry) :=
    allowOverflow = false /\
    (match startDate with None => False | Some s => date day < normalizeDate s end \/
     match endDate with None => False | Some e => normalizeDate e < date day end) in
  (chunkWeeks allowOverflow calendar endDate startDate = Some [] <->
   forall day, In day calendar -> excluded day) /\
  (chunkMonths allowOverflow calendar endDate startDate = Some [] <->
   forall day, In day calendar -> excluded day).
Proof.
  cbv zeta.
  assert (Hex : forall day,
            included allowOverflow endDate startDate day = false <->
            allowOverflow = false /\
            (match startDate with
             | None => False | Some s => date day < normalizeDate s end \/
             match endDate with
             | None => False | Some e => normalizeDate e < date day end)).
  { intros day. unfold included, inBounds, normalizeArg.
    rewrite orb_false_iff, andb_false_iff.
    destruct startDate as [s|], endDate as [e|]; cbn [option_map];
      rewrite ?Z.leb_gt; intuition discriminate. }
  assert (Hall : forall rows : list (list DayEntry),
            Forall (fun row => (0 < List.length row)%nat) rows ->
            List.concat rows
            = filter (included allowOverflow endDate startDate) calendar ->
            (Some rows = Some [] <->
             forall day, In day calendar ->
               allowOverflow = false /\
               (match startDate with
                | None => False | Some s => date day < normalizeDate s end \/
                match endDate with
                | None => False | Some e => normalizeDate e < date day end))).
  { intros rows Hne Hconcat.
    assert (Hrows : rows = [] <->
                    forall day, In day calendar ->
                      included allowOverflow endDate startDate day = false).
    { rewrite (concat_nonempty_rows rows Hne), Hconcat. apply filter_none. }
    split.
    - intros [= ->]. intros day Hin. apply Hex. apply Hrows; auto.
    - intros H. f_equal. apply Hrows. intros day Hin. apply Hex. auto. }
  split.
  - destruct (chunkWeeks_shape allowOverflow calendar endDate startDate)
      as (_ & -> & Hconcat & _).
    apply Hall; [apply filter_nonEmpty_Forall|].
    rewrite concat_filter_nonEmpty, concat_map_filter, Hconcat. reflexivity.
  - destruct (chunkMonths_shape allowOverflow calendar endDate startDate)
      as (_ & -> & Hconcat & _).
    apply Hall; [apply filter_nonEmpty_Forall|].
    rewrite concat_filter_nonEmpty, concat_map_filter, Hconcat. reflexivity.
Qed.

(** X17: [chunkWeeks] returns at most [ceil (length / 7)] rows of at most 7
    entries each, for every flag and bounds, and exactly
    [ceil (length / 7)] rows when [allowOverflow] is true. *)
Theorem chunkWeeks_sizes `{DL : DateLib} (allowOverflow : bool)
    (calendar : list DayEntry) (endDate startDate : option DateLike) :
  exists rows groups,
    chunkWeeks allowOverflow calendar endDate startDate = Some rows /\
    chunkWeeks true calendar endDate startDate = Some groups /\
    Z.of_nat (List.length groups) = (Z.of_nat (List.length calendar) + 6) / 7 /\
    (List.length rows <= List.length groups)%nat /\
    Forall (fun row => (List.length row <= 7)%nat) rows.
Proof.
  destruct (chunkWeeks_shape allowOverflow calendar endDate startDate)
    as (Htrue & Hrows & _).
  set (groups := tl (segment (fun _ => true) [] (weekMarks 0 calendar))) in *.
  destruct (groups_length calendar groups) as [Hlen Hseven].
  { intros k. apply weeks_by_index. }
  eexists. exists groups. split; [exact Hrows|]. split; [apply Htrue|].
  split; [exact Hlen|]. split.
  - etransitivity; [apply filter_length_le|]. rewrite length_map. lia.
  - apply Forall_forall. intros row Hin.
    apply filter_In in Hin as [Hin _].
    apply in_map_iff in Hin as (g & <- & Hg).
    rewrite Forall_forall in Hseven. specialize (Hseven g Hg).
    pose proof (filter_length_le (included allowOverflow endDate startDate) g).
    lia.
Qed.

Lemma monthChain_head (r : list DayEntry) (rows : list (list DayEntry)) :
  monthChain (r :: rows) -> exists m, rowMonth m r.
Proof.
  intros H. inversion H as [|m ? Hm|m m' ? ? ? Hm _ _ _]; subst; exists m; exact Hm.
Qed.

Lemma monthChain_monthRuns (cal : list DayEntry) : monthChain (monthRuns cal).
Proof.
  induction cal as [|x cal IH]; [constructor|].
  rewrite monthRuns_cons.
  assert (Hx : rowMonth (getMonth (date x)) [x]).
  { split; [discriminate|]. intros d [<-|[]]. reflexivity. }
  destruct (monthRuns cal) as [|[|y row] rows].
  - apply (monthChain_one _ _ Hx).
  - apply (monthChain_one _ _ Hx).
  - destruct (monthChain_head _ _ IH) as [m [Hne Hm]].
    assert (Hy : m = getMonth (date y)) by (symmetry; apply Hm; left; reflexivity).
    subst m.
    destruct (Z.eqb_spec (getMonth (date x)) (getMonth (date y))) as [E|NE].
    + assert (Hxy : rowMonth (getMonth (date y)) (x :: y :: row)).
      { split; [discriminate|]. intros d [<-|Hd]; [exact E | apply Hm; exact Hd]. }
      inversion IH as [|m ? _|m m' ? r' rows' Hm0 Hm' Hdiff Hrest]; subst.
      * apply (monthChain_one _ _ Hxy).
      * apply (monthChain_cons (getMonth (date y)) m' _ _ _ Hxy Hm'); [|exact Hrest].
        intros Heq. apply Hdiff. destruct Hm0 as [_ Hm0].
        rewrite <- (Hm0 y (or_introl eq_refl)). exact Heq.
    + apply (monthChain_cons _ _ _ _ _ Hx (conj Hne Hm) NE IH).
Qed.

Lemma monthRuns_one_month (cal : list DayEntry) (x : DayEntry) :
  (forall d, In d cal -> getMonth (date d) = getMonth (date x)) ->
  monthRuns (x :: cal) = [x :: cal].
Proof.
  revert x. induction cal as [|y cal IH]; intros x Hall; [reflexivity|].
  rewrite monthRuns_cons, (IH y).
  - rewrite (Hall y (or_introl eq_refl)), Z.eqb_refl. reflexivity.
  - intros d Hd. rewrite (Hall d (or_intror Hd)).
    symmetry. apply Hall. left. reflexivity.
Qed.

(** X18: on any calendar, contiguous or not, [chunkMonths] with
    [allowOverflow = true] cuts the calendar where [getMonth] changes from
    one entry to the next: the rows are non-empty, [getMonth] is constant
    on each row, and differs between neighbouring rows. *)
Theorem chunkMonths_cuts_at_month_changes `{DL : DateLib}
    (calendar : list DayEntry) (endDate startDate : option DateLike) :
  chunkMonths true calendar endDate startDate = Some (monthRuns calendar) /\
  monthChain (monthRuns calendar) /\
  List.concat (monthRuns calendar) = calendar.
Proof.
  destruct (chunkMonths_shape true calendar endDate startDate)
    as (Htrue & _ & Hconcat & _).
  rewrite monthRuns_groups in Htrue, Hconcat.
  split; [apply Htrue|]. split; [apply monthChain_monthRuns | exact Hconcat].
Qed.

(** X19: [chunkMonths] compares the month of the year only: a non-empty
    calendar on which [getMonth] is constant, whatever the years of its
    entries, comes back as one row. *)
Theorem chunkMonths_ignores_year `{DL : DateLib} (calendar : list DayEntry)
    (endDate startDate : option DateLike) (m : Z) :
  calendar <> [] ->
  (forall d, In d calendar -> getMonth (date d) = m) ->
  chunkMonths true calendar endDate startDate = Some [calendar].
Proof.
  intros Hne Hall.
  destruct (chunkMonths_shape true calendar endDate startDate) as (Htrue & _).
  rewrite monthRuns_groups in Htrue. rewrite Htrue.
  destruct calendar as [|x cal]; [congruence|].
  rewrite monthRuns_one_month; [reflexivity|].
  intros d Hd. rewrite (Hall d (or_intror Hd)).
  symmetry. apply Hall. left. reflexivity.
Qed.

Lemma chunkMonths_ignores_year_witness :
  chunkMonths (DL := SpecDateLib) true
    [ {| color := "#000"; date := newDate 2020 0 31; value := 1 |};
      {| color := "#000"; date := newDate 2021 0 1; value := 2 |} ] None None
  = Some [ [ {| color := "#000"; date := newDate 2020 0 31; value := 1 |};
             {| color := "#000"; date := newDate 2021 0 1; value := 2 |} ] ].
Proof.
  apply (chunkMonths_ignores_year (DL := SpecDateLib) _ None None 0).
  - discriminate.
  - intros d [<-|[<-|[]]]; vm_compute; reflexivity.
Defined.

Lemma getCalendar_contiguous `{DL : DateLib} (now1 now2 : Date)
    (colors : list string) (data : list Observation) (emptyColor : string)
    (endDate startDate : option DateLike) (view : string) (cal : list DayEntry) :
  getCalendar now1 now2 colors data emptyColor endDate startDate view = Some cal ->
  contiguous cal.
Proof.
  intros Hcal.
  apply (contiguous_offsets cal
           (fst (widenDates view (resolveDates now1 now2 endDate startDate)))).
  intros i d Hi.
  apply (getCalendar_entry _ _ _ _ _ _ _ _ cal Hcal i d Hi).
Qed.

(** X20: [chunkMonths] applied to a calendar that [getCalendar] returned,
    with any flag and bounds, gives rows of one calendar month each, in
    strictly ascending months: no month is split and no two are merged. *)
Theorem getCalendar_then_chunkMonths `{DL : DateLib} (now1 now2 : Date)
    (colors : list string) (data : list Observation) (emptyColor : string)
    (endDate startDate : option DateLike) (view : string)
    (allowOverflow : bool) (endBound startBound : option DateLike) :
  match getCalendar now1 now2 colors data emptyColor endDate startDate view with
  | Some cal =>
      exists rows,
        chunkMonths allowOverflow cal endBound startBound = Some rows /\
        Forall oneMonth rows /\
        forall k1 k2 r1 r2,
          nth_error rows k1 = Some r1 -> nth_error rows k2 = Some r2 ->
          (k1 < k2)%nat -> monthBefore r1 r2
  | None => True
  end.
Proof.
  destruct (getCalendar now1 now2 colors data emptyColor endDate startDate view)
    as [cal|] eqn:Hcal; [|exact I].
  pose proof (getCalendar_contiguous _ _ _ _ _ _ _ _ cal Hcal) as Hc.
  destruct (chunkMonths_shape allowOverflow cal endBound startBound)
    as (_ & Hrows & _).
  rewrite monthRuns_groups in Hrows.
  destruct (monthRuns_months cal Hc) as [Hone Hsorted].
  destruct (filtered_months (included allowOverflow endBound startBound)
              (monthRuns cal) Hone Hsorted) as [Hone' Hsorted'].
  eexists. split; [exact Hrows|]. split; [exact Hone'|].
  intros k1 k2 r1 r2 H1 H2 Hk.
  apply (StronglySorted_nth _ _ _ Hsorted' k1 k2 r1 r2 Hk H1 H2).
Qed.


(** ** Month rows hold at most 31 days *)










